(** * mediroutesaver: the journey pipeline of [app.py]

    A shallow embedding of the four functions of [app.py] that carry the
    logic of the application ([assign_journeys], [distance_callback],
    [update_courier_rounds], [calculate_total_time]) and the properties
    the specification states about them.

    Conventions.
    - A pandas table read from a spreadsheet is the list of its rows, in
      order; its index is the default [RangeIndex], so the label of a row is
      its position.  The journey table is the one table whose rows are
      dropped by label, and it carries its labels explicitly ([Frame]).
    - A Python exception is a value of [exn]; a call that may raise returns
      an [outcome].  The [while] loop of [assign_journeys] follows a chain of
      indices that the routing library hands back; it is modelled with fuel
      and [OutOfFuel] stands for a loop that has not finished yet.
    - Numbers of the [float64] columns (volumes, hours) are exact rationals.
    - [datetime.timedelta] values are whole seconds (the source only ever
      builds them from an hour, a minute and a second). *)

From Stdlib Require Import ZArith QArith List String Lia Sorted.
From stdpp Require Import gmap strings list pretty.

Local Open Scope string_scope.
Local Open Scope list_scope.
Local Open Scope nat_scope.

(** ** Exceptions and outcomes *)

Inductive exn : Type :=
| KeyError
| IndexError
| AttributeError.

(** The name of the Python class of an exception. *)
Definition exn_class (e : exn) : string :=
  match e with
  | KeyError => "KeyError"
  | IndexError => "IndexError"
  | AttributeError => "AttributeError"
  end.

Inductive outcome (A : Type) : Type :=
| Ok (a : A)
| Raise (e : exn)
| OutOfFuel.

Arguments Ok {A} a.
Arguments Raise {A} e.
Arguments OutOfFuel {A}.

#[global] Instance outcome_ret : MRet outcome := @Ok.

#[global] Instance outcome_bind : MBind outcome :=
  λ A B f m,
    match m with
    | Ok a => f a
    | Raise e => Raise e
    | OutOfFuel => OutOfFuel
    end.

(** [r] is a failure whose exception is of class [cls]. *)
Definition fails_with {A} (cls : string) (r : outcome A) : Prop :=
  ∃ e, r = Raise e ∧ exn_class e = cls.

(** ** Cells, rows and tables *)

(** [datetime.time]: the three fields the source reads. *)
Record time : Type := mkTime { hour : N; minute : N; second : N }.

(** Hashable labels: postcodes and identifiers are text or integers. *)
Inductive key : Type :=
| KInt (z : Z)
| KStr (s : string).

#[global] Instance key_eq_dec : EqDecision key.
Proof. solve_decision. Defined.

#[global] Instance key_countable : Countable key.
Proof.
  refine (inj_countable'
            (λ k, match k with KInt z => inl z | KStr s => inr s end)
            (λ x, match x with inl z => KInt z | inr s => KStr s end) _).
  by intros [].
Defined.

(** A cell of a table. [CNaN] is the blank cell. *)
Inductive cell : Type :=
| CKey (k : key)
| CReal (q : Q)
| CTime (t : time)
| CNaN.

(** A table whose rows carry their index labels. *)
Abbreviation Frame A := (list (nat * A)).

(** [pd.DataFrame(columns)]: the rows get the labels 0, 1, 2, ... *)
Definition DataFrame {A} (rows : list A) : Frame A := imap (λ i r, (i, r)) rows.

(** [table.iloc[i]] for a position [i >= 0]. *)
Definition iloc {A} (l : list A) (i : nat) : outcome A :=
  match l !! i with
  | Some a => Ok a
  | None => Raise IndexError
  end.

(** [frame.drop(label, inplace=True)]: every row with that label goes; a
    label that is not in the index is a [KeyError]. *)
Definition frame_drop {A} (label : nat) (fr : Frame A) : outcome (Frame A) :=
  if bool_decide (label ∈ fr.*1)
  then Ok (filter (λ r, r.1 ≠ label) fr)
  else Raise KeyError.

(** A [for] loop whose body may raise, with the loop state threaded through. *)
Fixpoint for_each {S A} (body : S → A → outcome S) (xs : list A) (st : S)
  : outcome S :=
  match xs with
  | [] => Ok st
  | x :: rest => st' ← body st x; for_each body rest st'
  end.

(** [for index, row in frame.iterrows(): body]. The rows are those of the
    table as it was when the loop began. *)
Definition iterrows {S A} (body : S → nat * A → outcome S)
    (rows : Frame A) (st : S) : outcome S :=
  for_each body rows st.

(** Column access [row[name]]. *)
Class Row (R : Type) : Type := getitem : R → string → outcome cell.

(** The pathology sample table. *)
Record Stop : Type := mkStop {
  s_Index : cell;
  s_Source_Surgery : cell;
  s_Source_Postcode : key;
  s_Date_of_Specimen : cell;
  s_Time_of_Specimen : cell
}.

(** The vehicle routes table: a postcode and the time to the next stop (a
    [datetime.time], or a blank cell). *)
Record TransitRow : Type := mkTransit {
  r_Postcode : key;
  Time_to_Next_Stop : option time
}.

(** The journey table built by [assign_journeys]. *)
Record Journey : Type := mkJourney {
  Index : cell;
  Source_Surgery : cell;
  Source_Postcode : key;
  Date_of_Specimen : cell;
  Time_of_Specimen : cell;
  Van_Collecting : string;
  Time_of_Collection : Q
}.

(** The courier rounds table. *)
Record CourierEntry : Type := mkCourier {
  Round_ID : key;
  Vehicle_ID : key;
  Time : cell;
  Location : cell;
  Postcode : key;
  Task : string;
  Volume : Q
}.

#[global] Instance journey_row : Row Journey :=
  λ j name,
    if bool_decide (name = "Index") then Ok (Index j)
    else if bool_decide (name = "Source Surgery") then Ok (Source_Surgery j)
    else if bool_decide (name = "Source Postcode") then Ok (CKey (Source_Postcode j))
    else if bool_decide (name = "Date of Specimen") then Ok (Date_of_Specimen j)
    else if bool_decide (name = "Time of Specimen") then Ok (Time_of_Specimen j)
    else if bool_decide (name = "Van Collecting") then Ok (CKey (KStr (Van_Collecting j)))
    else if bool_decide (name = "Time of Collection") then Ok (CReal (Time_of_Collection j))
    else Raise KeyError.

#[global] Instance transit_row : Row TransitRow :=
  λ r name,
    if bool_decide (name = "Postcode") then Ok (CKey (r_Postcode r))
    else if bool_decide (name = "Time to Next Stop")
         then Ok (match Time_to_Next_Stop r with Some t => CTime t | None => CNaN end)
    else Raise KeyError.

(** [timedelta(hours=t.hour, minutes=t.minute, seconds=t.second)], in
    seconds. *)
Definition seconds (t : time) : Z :=
  (3600 * Z.of_N (hour t) + 60 * Z.of_N (minute t) + Z.of_N (second t))%Z.

(** The same on a cell: a cell that is not a time has no such attributes. *)
Definition timedelta_of (c : cell) : outcome Z :=
  match c with
  | CTime t => Ok (seconds t)
  | _ => Raise AttributeError
  end.

(** ** Step 2: [assign_journeys] *)

(** [nx.DiGraph]: the successor dictionary of every node. The attribute
    dictionary of an edge holds its ['weight'] only, the raw cell of the
    column ['Time to Next Stop']. *)
Abbreviation DiGraph := (gmap key (gmap key (option time))).

Definition add_node (n : key) (G : DiGraph) : DiGraph :=
  match G !! n with
  | Some _ => G
  | None => <[n := ∅]> G
  end.

(** [G.add_edge(u, v, weight=w)]: both ends become nodes, and the edge is
    created or its weight overwritten. *)
Definition add_edge (u v : key) (weight : option time) (G : DiGraph) : DiGraph :=
  let G := add_node u G in
  let G := add_node v G in
  <[u := <[v := weight]> (default ∅ (G !! u))]> G.

Definition build_graph (vehicle_routes_data : list TransitRow) : outcome DiGraph :=
  iterrows
    (λ G '(index, row),
       if bool_decide (Z.of_nat index < Z.of_nat (length vehicle_routes_data) - 1)%Z then
         next_row ← iloc vehicle_routes_data (index + 1);
         let next_stop := r_Postcode next_row in
         mret (add_edge (r_Postcode row) next_stop (Time_to_Next_Stop row) G)
       else mret G)
    (DataFrame vehicle_routes_data) ∅.

(** The routing library ([ortools.constraint_solver.pywrapcp]) is not part
    of the application: its objects are records of the methods the source
    calls, and the library itself is a parameter. *)
Record RoutingIndexManager : Type := { IndexToNode : nat → nat }.

Record RoutingModel : Type := { Start : nat → nat; IsEnd : nat → bool }.

(** [SolveWithParameters] returns [None] when it finds no solution, and
    otherwise an assignment, read through
    [solution.Value(routing.NextVar(index))]. *)
Record pywrapcp : Type := {
  new_RoutingIndexManager : nat → nat → nat → RoutingIndexManager;
  new_RoutingModel : RoutingIndexManager → RoutingModel;
  SolveWithParameters :
    RoutingModel → (nat → nat → outcome (option time)) → nat → option (nat → nat)
}.

Definition distance_callback (G : DiGraph) (manager : RoutingIndexManager)
    (from_index to_index : nat) : outcome (option time) :=
  let from_node := IndexToNode manager from_index in
  let to_node := IndexToNode manager to_index in
  match G !! KInt (Z.of_nat from_node) with
  | None => Raise KeyError
  | Some successors =>
      match successors !! KInt (Z.of_nat to_node) with
      | None => Raise KeyError
      | Some weight => Ok weight
      end
  end.

(** [total_time.total_seconds() / 3600] *)
Definition hours (total_time : Z) : Q := total_time # 3600.

Section extraction.
Context (sample_data : list Stop) (vehicle_routes_data : list TransitRow).
Context (manager : RoutingIndexManager) (routing : RoutingModel).
Context (solution : option (nat → nat)).

(** The body of the [while] loop up to the move to the next index: the
    state is the running [total_time] and the rows of [journeys]. *)
Definition visit (van_index node : nat) (st : Z * list Journey)
  : outcome (Z * list Journey) :=
  let '(total_time, journeys) := st in
  if bool_decide (node ≠ 0) then
    journey_data ← iloc sample_data (node - 1);
    row ← iloc vehicle_routes_data (node - 1);
    c ← getitem row "Time to Next Stop";
    time_to_next_stop ← timedelta_of c;
    let total_time := (total_time + time_to_next_stop)%Z in
    mret (total_time,
          journeys ++ [ {| Index := s_Index journey_data;
                           Source_Surgery := s_Source_Surgery journey_data;
                           Source_Postcode := s_Source_Postcode journey_data;
                           Date_of_Specimen := s_Date_of_Specimen journey_data;
                           Time_of_Specimen := s_Time_of_Specimen journey_data;
                           Van_Collecting := "Van " +:+ pretty (van_index + 1);
                           Time_of_Collection := hours total_time |} ])
  else mret st.

(** [while not routing.IsEnd(index): ...] *)
Fixpoint van_loop (fuel : nat) (van_index index : nat) (st : Z * list Journey)
  : outcome (list Journey) :=
  match fuel with
  | 0 => OutOfFuel
  | S fuel =>
      if IsEnd routing index then Ok st.2
      else
        let node := IndexToNode manager index in
        st ← visit van_index node st;
        match solution with
        | None => Raise AttributeError
        | Some next => van_loop fuel van_index (next index) st
        end
  end.

(** [for van_index in range(num_vans): ...] *)
Definition extract (fuel : nat) (num_vans : nat) : outcome (list Journey) :=
  for_each
    (λ journeys van_index,
       let index := Start routing van_index in
       let total_time := 0%Z in
       van_loop fuel van_index index (total_time, journeys))
    (seq 0 num_vans) [].
End extraction.

Definition assign_journeys (ortools : pywrapcp) (fuel : nat)
    (sample_data : list Stop) (vehicle_routes_data : list TransitRow)
    (num_vans : nat) : outcome (Frame Journey) :=
  G ← build_graph vehicle_routes_data;
  let manager := new_RoutingIndexManager ortools (size G) num_vans 0 in
  let routing := new_RoutingModel ortools manager in
  let solution :=
    SolveWithParameters ortools routing (distance_callback G manager) 10 in
  journeys ← extract sample_data vehicle_routes_data manager routing solution
                     fuel num_vans;
  mret (DataFrame journeys).

(** ** Step 3: [update_courier_rounds] *)

Definition consolidate (st : list CourierEntry * Frame Journey) (ir : nat * Journey)
  : outcome (list CourierEntry * Frame Journey) :=
  let '(courier_data, optimized_journeys) := st in
  let '(index, row) := ir in
  if bool_decide (Source_Postcode row ∈ Postcode <$> courier_data) then
    courier_stop ←
      iloc (filter (λ c, Postcode c = Source_Postcode row) courier_data) 0;
    if bool_decide (Task courier_stop = "Spare time")
       || bool_decide (Task courier_stop = "Deliver/Collect post") then
      let sample_volume := 0.036%Q in
      if Qle_bool (Volume courier_stop + sample_volume) 5.3 then
        let courier_data :=
          courier_data ++ [ {| Round_ID := Round_ID courier_stop;
                               Vehicle_ID := Vehicle_ID courier_stop;
                               Time := Time_of_Specimen row;
                               Location := Source_Surgery row;
                               Postcode := Source_Postcode row;
                               Task := "Collect samples";
                               Volume := sample_volume |} ] in
        optimized_journeys ← frame_drop index optimized_journeys;
        mret (courier_data, optimized_journeys)
      else mret st
    else mret st
  else mret st.

Definition update_courier_rounds (courier_data : list CourierEntry)
    (optimized_journeys : Frame Journey) (sample_data : list Stop)
  : outcome (list CourierEntry * Frame Journey) :=
  iterrows consolidate optimized_journeys (courier_data, optimized_journeys).

(** ** Step 4: [calculate_total_time] *)

Definition calculate_total_time {R} `{Row R} (optimized_journeys : Frame R)
    (vehicle_routes_data : list TransitRow) : outcome Z :=
  iterrows
    (λ total_time r,
       c ← getitem r.2 "Time to Next Stop";
       time_to_next_stop ← timedelta_of c;
       mret (total_time + time_to_next_stop)%Z)
    optimized_journeys 0%Z.

(** ** The steps in sequence, as [main] runs them *)

Definition main (ortools : pywrapcp) (fuel : nat) (sample_data : list Stop)
    (vehicle_routes_data : list TransitRow) (courier_data : list CourierEntry)
    (num_vans : nat) : outcome (list CourierEntry * Frame Journey * Z) :=
  optimized_journeys ←
    assign_journeys ortools fuel sample_data vehicle_routes_data num_vans;
  '(courier_data, optimized_journeys) ←
    update_courier_rounds courier_data optimized_journeys sample_data;
  total_time ← calculate_total_time optimized_journeys vehicle_routes_data;
  mret (courier_data, optimized_journeys, total_time).

(** ** Reading the graph and the routes *)

(** The weight of the edge from [u] to [v], if there is one. *)
Definition edge_weight (G : DiGraph) (u v : key) : option (option time) :=
  G !! u ≫= λ successors, successors !! v.

(** The graph by recursion on the rows: every row but the last adds the
    edge to its successor. *)
Fixpoint chain (rows : list TransitRow) (G : DiGraph) : DiGraph :=
  match rows with
  | row :: rest =>
      match rest with
      | next_row :: _ =>
          chain rest (add_edge (r_Postcode row) (r_Postcode next_row)
                               (Time_to_Next_Stop row) G)
      | [] => G
      end
  | [] => G
  end.

(** Rows [i] and [i + 1] of the table are stops at [u] and [v], and [w] is
    the time to the next stop recorded in row [i]. *)
Definition adjacent (rows : list TransitRow) (u v : key) (w : option time) : Prop :=
  ∃ i r r', rows !! i = Some r ∧ rows !! S i = Some r'
            ∧ r_Postcode r = u ∧ r_Postcode r' = v ∧ Time_to_Next_Stop r = w.

(** The nodes the [while] loop of one van passes from [index] on, the depot
    included. *)
Fixpoint route (manager : RoutingIndexManager) (routing : RoutingModel)
    (solution : option (nat → nat)) (fuel index : nat) : list nat :=
  match fuel with
  | 0 => []
  | S fuel =>
      if IsEnd routing index then []
      else IndexToNode manager index ::
           match solution with
           | Some next => route manager routing solution fuel (next index)
           | None => []
           end
  end.

(** The stops of one van: the nodes of its route other than the depot. *)
Definition stops_of_van (manager : RoutingIndexManager) (routing : RoutingModel)
    (solution : option (nat → nat)) (fuel van_index : nat) : list nat :=
  filter (λ node, node ≠ 0)
         (route manager routing solution fuel (Start routing van_index)).

(** What the tables record for a node: the sample row before it and the
    time to the next stop of the route row before it. *)
Definition recorded (sample_data : list Stop) (vehicle_routes_data : list TransitRow)
    (node : nat) (v : Stop * time) : Prop :=
  sample_data !! (node - 1) = Some v.1
  ∧ Time_to_Next_Stop <$> vehicle_routes_data !! (node - 1) = Some (Some v.2).

(** The journeys of one van as the specification words them: a clock that
    starts at [total_time] and at every stop first adds the recorded
    duration, then reports the hours. *)
Fixpoint collect (van_index : nat) (total_time : Z) (visits : list (Stop * time))
  : list Journey :=
  match visits with
  | [] => []
  | (stop, t) :: rest =>
      let total_time := (total_time + seconds t)%Z in
      {| Index := s_Index stop;
         Source_Surgery := s_Source_Surgery stop;
         Source_Postcode := s_Source_Postcode stop;
         Date_of_Specimen := s_Date_of_Specimen stop;
         Time_of_Specimen := s_Time_of_Specimen stop;
         Van_Collecting := "Van " +:+ pretty (van_index + 1);
         Time_of_Collection := hours total_time |}
      :: collect van_index total_time rest
  end.

(** A routing library that plays back a given answer. *)
Definition scripted (node_of start : nat → nat) (is_end : nat → bool)
    (solution : option (nat → nat)) : pywrapcp :=
  {| new_RoutingIndexManager := λ _ _ _, {| IndexToNode := node_of |};
     new_RoutingModel := λ _, {| Start := start; IsEnd := is_end |};
     SolveWithParameters := λ _ _ _, solution |}.

(** ** Reading the consolidation off the input tables *)

(** The row appended for a journey folded into the entry [courier_stop]. *)
Definition collected (courier_stop : CourierEntry) (row : Journey) : CourierEntry :=
  {| Round_ID := Round_ID courier_stop;
     Vehicle_ID := Vehicle_ID courier_stop;
     Time := Time_of_Specimen row;
     Location := Source_Surgery row;
     Postcode := Source_Postcode row;
     Task := "Collect samples";
     Volume := 0.036%Q |}.

(** The entry of [courier_data] a journey is folded into, if any: the first
    entry at the journey's postcode, when its task and its volume allow. *)
Definition fold_in_target (courier_data : list CourierEntry) (row : Journey)
  : option CourierEntry :=
  match head (filter (λ c, Postcode c = Source_Postcode row) courier_data) with
  | Some c =>
      if (bool_decide (Task c = "Spare time")
          || bool_decide (Task c = "Deliver/Collect post"))
         && Qle_bool (Volume c + 0.036) 5.3
      then Some c else None
  | None => None
  end.

(** The volume carried by a round of a vehicle: the sum over its entries. *)
Definition round_total (round vehicle : key) (courier_data : list CourierEntry) : Q :=
  foldr Qplus 0%Q
    (Volume <$> filter (λ c, Round_ID c = round ∧ Vehicle_ID c = vehicle) courier_data).

(** The rows appended and the rows kept, read off the input tables. *)
Definition appended (courier_data : list CourierEntry) (journeys : Frame Journey)
  : list CourierEntry :=
  omap (λ ir, (λ c, collected c ir.2) <$> fold_in_target courier_data ir.2) journeys.

Definition kept (courier_data : list CourierEntry) (journeys : Frame Journey)
  : Frame Journey :=
  filter (λ ir, fold_in_target courier_data ir.2 = None) journeys.

(** A round that stands at 5.3 - 0.01, and a journey to the postcode of its
    first stop. *)
Definition lordshill_stop : CourierEntry :=
  {| Round_ID := KStr "R1"; Vehicle_ID := KStr "V1";
     Time := CTime (mkTime 9 0 0); Location := CKey (KStr "Lordshill Surgery");
     Postcode := KStr "SO16 8HY"; Task := "Spare time"; Volume := 3 |}.

Definition shirley_stop : CourierEntry :=
  {| Round_ID := KStr "R1"; Vehicle_ID := KStr "V1";
     Time := CTime (mkTime 9 40 0); Location := CKey (KStr "Shirley Health Centre");
     Postcode := KStr "SO15 5SJ"; Task := "Deliver/Collect post"; Volume := 2.29 |}.

Definition full_round : list CourierEntry := [lordshill_stop; shirley_stop].

Definition lordshill_journey : Journey :=
  {| Index := CKey (KInt 1); Source_Surgery := CKey (KStr "Lordshill Surgery");
     Source_Postcode := KStr "SO16 8HY"; Date_of_Specimen := CKey (KStr "2023-11-20");
     Time_of_Specimen := CTime (mkTime 8 30 0); Van_Collecting := "Van 1";
     Time_of_Collection := hours 600 |}.

Definition portswood_journey : Journey :=
  {| Index := CKey (KInt 2); Source_Surgery := CKey (KStr "Portswood Surgery");
     Source_Postcode := KStr "SO17 2NG"; Date_of_Specimen := CKey (KStr "2023-11-20");
     Time_of_Specimen := CTime (mkTime 8 45 0); Van_Collecting := "Van 1";
     Time_of_Collection := hours 1500 |}.

(** Four stops of a route, the depot first, with the times 0:10, 0:15 and
    0:05 between them, and the samples waiting at the three surgeries. *)
Definition four_stops : list TransitRow :=
  [ {| r_Postcode := KStr "SO16 6YD"; Time_to_Next_Stop := Some (mkTime 0 10 0) |};
    {| r_Postcode := KStr "SO16 8HY"; Time_to_Next_Stop := Some (mkTime 0 15 0) |};
    {| r_Postcode := KStr "SO17 2NG"; Time_to_Next_Stop := Some (mkTime 0 5 0) |};
    {| r_Postcode := KStr "SO15 5SJ"; Time_to_Next_Stop := None |} ].

Definition three_samples : list Stop :=
  [ {| s_Index := CKey (KInt 1); s_Source_Surgery := CKey (KStr "Lordshill Surgery");
       s_Source_Postcode := KStr "SO16 8HY";
       s_Date_of_Specimen := CKey (KStr "2023-11-20");
       s_Time_of_Specimen := CTime (mkTime 8 30 0) |};
    {| s_Index := CKey (KInt 2); s_Source_Surgery := CKey (KStr "Portswood Surgery");
       s_Source_Postcode := KStr "SO17 2NG";
       s_Date_of_Specimen := CKey (KStr "2023-11-20");
       s_Time_of_Specimen := CTime (mkTime 8 45 0) |};
    {| s_Index := CKey (KInt 3); s_Source_Surgery := CKey (KStr "Shirley Health Centre");
       s_Source_Postcode := KStr "SO15 5SJ";
       s_Date_of_Specimen := CKey (KStr "2023-11-20");
       s_Time_of_Specimen := CTime (mkTime 9 5 0) |} ].

(** An answer for four nodes and two vans. Indices 0 to 3 are the nodes, 4
    is the start of the second van, 5 and 6 are the ends. The first van
    goes to node 2, then to node 1; the second van goes to node 3. *)
Definition two_vans : pywrapcp :=
  scripted (λ index, if bool_decide (index < 4) then index else 0)
           (λ van_index, if bool_decide (van_index = 0) then 0 else 4)
           (λ index, bool_decide (5 ≤ index))
           (Some (λ index,
              match index with
              | 0 => 2 | 2 => 1 | 1 => 5
              | 4 => 3 | _ => 6
              end)).

(** The same library when the solver finds nothing. *)
Definition no_solution : pywrapcp :=
  scripted (λ index, if bool_decide (index < 4) then index else 0)
           (λ van_index, if bool_decide (van_index = 0) then 0 else 4)
           (λ index, bool_decide (5 ≤ index))
           None.



(** Three stops whose postcode column holds the node numbers. *)
Definition numbered_stops : list TransitRow :=
  [ {| r_Postcode := KInt 0; Time_to_Next_Stop := Some (mkTime 0 10 0) |};
    {| r_Postcode := KInt 1; Time_to_Next_Stop := Some (mkTime 0 15 0) |};
    {| r_Postcode := KInt 2; Time_to_Next_Stop := None |} ].

(** The journeys of [four_stops] with [two_vans]. *)
Definition two_van_journeys : Frame Journey :=
  Eval vm_compute in
    match assign_journeys two_vans 10 three_samples four_stops 2 with
    | Ok journeys => journeys
    | _ => []
    end.

(** The chain of indices that starts at [index] meets an end index within
    [fuel] steps. *)
Fixpoint ends_within (routing : RoutingModel) (next : nat → nat)
    (fuel index : nat) : bool :=
  match fuel with
  | 0 => false
  | S fuel => IsEnd routing index || ends_within routing next fuel (next index)
  end.

(** A round with room at the three surgeries of [three_samples]. *)
Definition open_round : list CourierEntry :=
  [ lordshill_stop;
    {| Round_ID := KStr "R2"; Vehicle_ID := KStr "V2";
       Time := CTime (mkTime 10 0 0); Location := CKey (KStr "Portswood Surgery");
       Postcode := KStr "SO17 2NG"; Task := "Deliver/Collect post"; Volume := 1.5 |};
    {| Round_ID := KStr "R2"; Vehicle_ID := KStr "V2";
       Time := CTime (mkTime 10 30 0); Location := CKey (KStr "Shirley Health Centre");
       Postcode := KStr "SO15 5SJ"; Task := "Spare time"; Volume := 0 |} ].

(** A route that passes the same two postcodes twice, with different
    times. *)
Definition there_and_back : list TransitRow :=
  [ {| r_Postcode := KStr "SO16 6YD"; Time_to_Next_Stop := Some (mkTime 0 10 0) |};
    {| r_Postcode := KStr "SO16 8HY"; Time_to_Next_Stop := Some (mkTime 0 15 0) |};
    {| r_Postcode := KStr "SO16 6YD"; Time_to_Next_Stop := Some (mkTime 0 20 0) |};
    {| r_Postcode := KStr "SO16 8HY"; Time_to_Next_Stop := None |} ].

(** The courier table after [main] has folded the three journeys of
    [four_stops] into [open_round]. *)
Definition open_round_after : list CourierEntry :=
  Eval vm_compute in
    match main two_vans 10 three_samples four_stops open_round 2 with
    | Ok (courier_data, _, _) => courier_data
    | _ => []
    end.

(** The hours of one recorded time, from its three fields. *)
Definition hms_hours (t : time) : Q :=
  inject_Z (Z.of_N (hour t)) + inject_Z (Z.of_N (minute t)) / 60
  + inject_Z (Z.of_N (second t)) / 3600.

(** The clock keyed by the stop just departed: at every node other than
    the depot the van adds the time to the next stop that the route table
    records for the node it has just left, [previous]; a blank adds
    nothing. The nodes are those of a route, in order, the depot included. *)
Fixpoint departed_clock (vehicle_routes_data : list TransitRow)
    (total_time : Z) (previous : nat) (nodes : list nat) : list Q :=
  match nodes with
  | [] => []
  | node :: rest =>
      if bool_decide (node = 0)
      then departed_clock vehicle_routes_data total_time node rest
      else
        let total_time :=
          (total_time
           + from_option seconds 0
               (vehicle_routes_data !! previous ≫= Time_to_Next_Stop))%Z in
        hours total_time
        :: departed_clock vehicle_routes_data total_time node rest
  end.

(** * Properties *)

(** ** Consolidation *)

Section consolidation.
Implicit Types (cd app : list CourierEntry) (fr js : Frame Journey).
Implicit Types (row : Journey) (c : CourierEntry).

Lemma filter_all {A} (P : A → Prop) `{!∀ x, Decision (P x)} (l : list A) :
  Forall P l → filter P l = l.
Proof.
  induction 1 as [|x l Hx _ IH]; [done|].
  rewrite filter_cons_True by done. by f_equal.
Qed.

Lemma filter_none {A} (P : A → Prop) `{!∀ x, Decision (P x)} (l : list A) :
  Forall (λ x, ¬ P x) l → filter P l = [].
Proof.
  induction 1 as [|x l Hx _ IH]; [done|].
  by rewrite filter_cons_False.
Qed.

Lemma frame_drop_middle {A} (K rest : Frame A) i (x : A) :
  i ∉ K.*1 → i ∉ rest.*1 →
  frame_drop i (K ++ (i, x) :: rest) = Ok (K ++ rest).
Proof.
  intros HK Hrest. unfold frame_drop.
  rewrite bool_decide_eq_true_2.
  2:{ rewrite fmap_app, fmap_cons. set_solver. }
  f_equal. rewrite filter_app, filter_cons_False by (simpl; intros H; by apply H).
  rewrite !filter_all; [done|..]; apply Forall_forall; intros [j y] Hj; simpl;
    intros ->; [apply Hrest|apply HK]; apply list_elem_of_fmap; by exists (i, y).
Qed.

(** Each step decides on the entries of the table it began with: an
    appended entry sits behind an older entry at the same postcode. *)
Lemma consolidate_target cd app fr i row :
  Forall (λ a, Postcode a ∈ Postcode <$> cd) app →
  consolidate (cd ++ app, fr) (i, row) =
    match fold_in_target cd row with
    | Some c => fr' ← frame_drop i fr; Ok ((cd ++ app) ++ [collected c row], fr')
    | None => Ok (cd ++ app, fr)
    end.
Proof.
  intros Happ. unfold consolidate, fold_in_target.
  destruct (head (filter (λ c, Postcode c = Source_Postcode row) cd)) as [c|] eqn:Hhd.
  - assert (Hc : c ∈ filter (λ c, Postcode c = Source_Postcode row) cd).
    { destruct (filter _ cd); simplify_eq/=. left. }
    apply list_elem_of_filter in Hc as [Hpc Hc].
    rewrite bool_decide_eq_true_2.
    2:{ rewrite fmap_app, elem_of_app. left. apply list_elem_of_fmap. by exists c. }
    rewrite filter_app.
    destruct (filter _ cd) as [|c' l] eqn:Hf; simplify_eq/=.
    unfold iloc; simpl.
    destruct (bool_decide (Task c = "Spare time")
              || bool_decide (Task c = "Deliver/Collect post")); simpl; [|done].
    by destruct (Qle_bool _ _).
  - apply head_None in Hhd.
    rewrite bool_decide_eq_false_2; [done|].
    rewrite fmap_app, elem_of_app. intros [Hin|Hin].
    + apply list_elem_of_fmap in Hin as (c & Hpc & Hc).
      assert (c ∈ filter (λ c, Postcode c = Source_Postcode row) cd)
        by (by apply list_elem_of_filter).
      rewrite Hhd in H. by apply elem_of_nil in H.
    + apply list_elem_of_fmap in Hin as (a & Hpa & Ha).
      rewrite Forall_forall in Happ. specialize (Happ a Ha).
      rewrite <- Hpa in Happ.
      apply list_elem_of_fmap in Happ as (c & Hpc & Hc).
      assert (c ∈ filter (λ c, Postcode c = Source_Postcode row) cd)
        by (by apply list_elem_of_filter).
      rewrite Hhd in H. by apply elem_of_nil in H.
Qed.

Lemma fold_in_target_elem cd row c :
  fold_in_target cd row = Some c → c ∈ cd ∧ Postcode c = Source_Postcode row.
Proof.
  unfold fold_in_target.
  destruct (head (filter _ cd)) as [c'|] eqn:Hhd; [|done].
  intros Hc.
  assert (c = c') as -> by (by destruct (_ && _); simplify_eq).
  assert (Hin : c' ∈ filter (λ c, Postcode c = Source_Postcode row) cd).
  { destruct (filter _ cd); simplify_eq/=. left. }
  apply list_elem_of_filter in Hin. tauto.
Qed.

Lemma appended_cons cd i row rest :
  appended cd ((i, row) :: rest)
  = match fold_in_target cd row with
    | Some c => collected c row :: appended cd rest
    | None => appended cd rest
    end.
Proof. unfold appended. simpl. by destruct (fold_in_target cd row). Qed.

Lemma kept_cons cd i row rest :
  kept cd ((i, row) :: rest)
  = match fold_in_target cd row with
    | Some c => kept cd rest
    | None => (i, row) :: kept cd rest
    end.
Proof.
  unfold kept. destruct (fold_in_target cd row) eqn:Ht.
  - rewrite filter_cons_False; [done|]. simpl. congruence.
  - by rewrite filter_cons_True.
Qed.

Lemma consolidate_loop cd rest : ∀ app K,
  NoDup rest.*1 → (∀ l, l ∈ K.*1 → l ∉ rest.*1) →
  Forall (λ a, Postcode a ∈ Postcode <$> cd) app →
  for_each consolidate rest (cd ++ app, K ++ rest)
  = Ok (cd ++ app ++ appended cd rest, K ++ kept cd rest).
Proof.
  induction rest as [|[i row] rest IH]; intros app K Hnd HK Happ.
  { simpl. by rewrite !app_nil_r. }
  rewrite fmap_cons in Hnd. apply NoDup_cons in Hnd as [Hi Hnd].
  cbn [for_each]. rewrite consolidate_target, appended_cons, kept_cons by done.
  destruct (fold_in_target cd row) as [c|] eqn:Ht.
  - rewrite frame_drop_middle; [|intros Hin; apply (HK _ Hin); left|done].
    cbn [mbind outcome_bind]. rewrite <- (app_assoc cd app), IH; [| done | |].
    + by rewrite <- app_assoc.
    + intros l Hl Hl'. apply (HK l Hl). by right.
    + apply Forall_app; split; [done|]. apply Forall_singleton.
      apply fold_in_target_elem in Ht as [Hc Hpc]. simpl.
      apply list_elem_of_fmap. by exists c.
  - cbn [mbind outcome_bind].
    rewrite (cons_middle (i, row) K rest), app_assoc, IH; [| done | | done].
    + by rewrite <- app_assoc.
    + intros l Hl Hl'. rewrite fmap_app in Hl. apply elem_of_app in Hl as [Hl|Hl].
      * apply (HK l Hl). by right.
      * simpl in Hl. apply list_elem_of_singleton in Hl as ->. done.
Qed.

(** On a journey table with distinct labels the pass returns, and its two
    results are decided by the courier table it was given. *)
Lemma update_courier_rounds_reads_input cd js sd :
  NoDup js.*1 →
  update_courier_rounds cd js sd = Ok (cd ++ appended cd js, kept cd js).
Proof.
  intros Hnd. unfold update_courier_rounds, iterrows.
  pose proof (consolidate_loop cd js [] [] Hnd) as H.
  rewrite !app_nil_r in H. simpl in H. apply H; [|done].
  intros l Hl. by apply elem_of_nil in Hl.
Qed.

Lemma consolidate_frame cd fr ir cd' fr' :
  consolidate (cd, fr) ir = Ok (cd', fr') →
  (∃ app, cd' = cd ++ app) ∧ fr' `sublist_of` fr.
Proof.
  destruct ir as [i row]. unfold consolidate, mret, outcome_ret.
  assert (Hid : (∃ app, cd = cd ++ app) ∧ fr `sublist_of` fr).
  { split; [exists []; by rewrite app_nil_r | done]. }
  case_bool_decide; [|intros; by simplify_eq/=].
  destruct (iloc _ 0) as [c| |]; cbn [mbind outcome_bind]; [|done..].
  destruct (_ || _); [|intros; by simplify_eq/=].
  destruct (Qle_bool _ _); [|intros; by simplify_eq/=].
  unfold frame_drop. case_bool_decide; cbn [mbind outcome_bind]; [|done].
  intros; simplify_eq/=. split; [by eexists | apply sublist_filter].
Qed.

Lemma consolidate_loop_frame rest : ∀ cd fr cd' fr',
  for_each consolidate rest (cd, fr) = Ok (cd', fr') →
  (∃ app, cd' = cd ++ app) ∧ fr' `sublist_of` fr.
Proof.
  induction rest as [|ir rest IH]; intros cd fr cd' fr' H; cbn [for_each] in H.
  { simplify_eq. split; [exists []; by rewrite app_nil_r | done]. }
  destruct (consolidate (cd, fr) ir) as [[cd1 fr1]| |] eqn:Hstep;
    cbn [mbind outcome_bind] in H; [|done..].
  apply consolidate_frame in Hstep as [[app1 ->] Hsub1].
  apply IH in H as [[app2 ->] Hsub2]. split.
  - exists (app1 ++ app2). by rewrite app_assoc.
  - by etrans.
Qed.

Lemma fold_in_target_Some cd row c :
  head (filter (λ c, Postcode c = Source_Postcode row) cd) = Some c →
  Task c = "Spare time" ∨ Task c = "Deliver/Collect post" →
  (Volume c + 0.036 <= 5.3)%Q →
  fold_in_target cd row = Some c.
Proof.
  intros Hhd Htask Hvol. unfold fold_in_target. rewrite Hhd.
  apply Qle_bool_iff in Hvol. rewrite Hvol, andb_true_r.
  destruct Htask as [Ht|Ht]; rewrite (bool_decide_eq_true_2 _ Ht); [done|].
  by rewrite orb_true_r.
Qed.

Lemma fold_in_target_Some_inv cd row c :
  fold_in_target cd row = Some c →
  head (filter (λ c, Postcode c = Source_Postcode row) cd) = Some c
  ∧ (Task c = "Spare time" ∨ Task c = "Deliver/Collect post")
  ∧ (Volume c + 0.036 <= 5.3)%Q.
Proof.
  unfold fold_in_target. destruct (head _) as [c'|]; [|done].
  destruct (_ && _) eqn:Hb; [|done]. intros ?; simplify_eq.
  apply andb_true_iff in Hb as [Htask Hvol]. split; [done|]. split.
  - apply orb_true_iff in Htask as [H|H]; apply bool_decide_eq_true in H; tauto.
  - by apply Qle_bool_iff.
Qed.

Lemma appended_elem cd js a :
  a ∈ appended cd js ↔
  ∃ i row c, (i, row) ∈ js ∧ fold_in_target cd row = Some c ∧ a = collected c row.
Proof.
  unfold appended. rewrite list_elem_of_omap. split.
  - intros ([i row] & Hin & Ha). simpl in Ha.
    destruct (fold_in_target cd row) as [c|] eqn:Ht; simplify_eq/=.
    by exists i, row, c.
  - intros (i & row & c & Hin & Ht & ->). exists (i, row). split; [done|].
    simpl. by rewrite Ht.
Qed.

Lemma kept_elem cd js i row :
  (i, row) ∈ kept cd js ↔ (i, row) ∈ js ∧ fold_in_target cd row = None.
Proof. unfold kept. rewrite list_elem_of_filter. simpl. tauto. Qed.

Lemma no_courier_no_change js : appended [] js = [] ∧ kept [] js = js.
Proof.
  induction js as [|[i row] js [IHa IHk]]; [done|].
  by rewrite appended_cons, kept_cons, IHa, IHk.
Qed.

(** C3: a journey whose postcode has a courier entry is matched with the
    first such entry of the table; when that entry's task is "Spare time"
    or "Deliver/Collect post" and its volume plus 0.036 is at most 5.3, a
    "Collect samples" entry of volume 0.036 with the journey's time and
    place and the entry's round and vehicle is appended and the journey
    leaves the journey table; any other journey stays, and with no
    courier entries both tables come back as they were. *)
Theorem update_courier_rounds_first_match cd js sd :
  NoDup js.*1 →
  ∃ app js',
    update_courier_rounds cd js sd = Ok (cd ++ app, js') ∧
    (∀ i row c,
       (i, row) ∈ js →
       head (filter (λ c, Postcode c = Source_Postcode row) cd) = Some c →
       Task c = "Spare time" ∨ Task c = "Deliver/Collect post" →
       (Volume c + 0.036 <= 5.3)%Q →
       {| Round_ID := Round_ID c; Vehicle_ID := Vehicle_ID c;
          Time := Time_of_Specimen row; Location := Source_Surgery row;
          Postcode := Source_Postcode row; Task := "Collect samples";
          Volume := 0.036%Q |} ∈ app
       ∧ (i, row) ∉ js') ∧
    (∀ i row,
       (i, row) ∈ js →
       (∀ c, head (filter (λ c, Postcode c = Source_Postcode row) cd) = Some c →
             ¬ ((Task c = "Spare time" ∨ Task c = "Deliver/Collect post")
                ∧ (Volume c + 0.036 <= 5.3)%Q)) →
       (i, row) ∈ js') ∧
    (cd = [] → app = [] ∧ js' = js).
Proof.
  intros Hnd. exists (appended cd js), (kept cd js).
  split; [by apply update_courier_rounds_reads_input|].
  split; [|split].
  - intros i row c Hin Hhd Htask Hvol.
    pose proof (fold_in_target_Some _ _ _ Hhd Htask Hvol) as Ht. split.
    + apply appended_elem. by exists i, row, c.
    + rewrite kept_elem. intros [_ Hnone]. congruence.
  - intros i row Hin Hno. apply kept_elem. split; [done|].
    destruct (fold_in_target cd row) as [c|] eqn:Ht; [|done].
    apply fold_in_target_Some_inv in Ht as (Hhd & Htask & Hvol).
    by destruct (Hno c Hhd).
  - intros ->. apply no_courier_no_change.
Qed.

Lemma update_courier_rounds_first_match_witness :
  NoDup (DataFrame [lordshill_journey; portswood_journey]).*1
  ∧ ∃ app js',
      update_courier_rounds full_round
        (DataFrame [lordshill_journey; portswood_journey]) []
      = Ok (full_round ++ app, js').
Proof.
  assert (Hnd : NoDup (DataFrame [lordshill_journey; portswood_journey]).*1).
  { apply (bool_decide_unpack _). vm_compute. exact I. }
  split; [exact Hnd|].
  destruct (update_courier_rounds_first_match full_round
              (DataFrame [lordshill_journey; portswood_journey]) [] Hnd)
    as (app & js' & Hrun & _).
  by exists app, js'.
Defined.

(** C1, as the source has it: the check that guards an append reads the
    volume of the matched entry alone. Every appended entry has volume
    0.036 and carries the round and vehicle of the first entry of the
    input table at its postcode, and that entry's own volume plus 0.036
    is at most 5.3; a journey whose matched entry has volume 5.3 - 0.01
    is left unconsolidated. *)
Theorem append_guarded_by_matched_volume cd js sd :
  NoDup js.*1 →
  ∃ app js',
    update_courier_rounds cd js sd = Ok (cd ++ app, js') ∧
    Forall (λ a, Volume a = 0.036%Q ∧
                 ∃ c, head (filter (λ c, Postcode c = Postcode a) cd) = Some c
                      ∧ Round_ID a = Round_ID c ∧ Vehicle_ID a = Vehicle_ID c
                      ∧ (Volume c + Volume a <= 5.3)%Q) app ∧
    (∀ i row c,
       (i, row) ∈ js →
       head (filter (λ c, Postcode c = Source_Postcode row) cd) = Some c →
       (Volume c == 5.3 - 0.01)%Q →
       (i, row) ∈ js').
Proof.
  intros Hnd. exists (appended cd js), (kept cd js).
  split; [by apply update_courier_rounds_reads_input|]. split.
  - apply Forall_forall. intros a Ha.
    apply appended_elem in Ha as (i & row & c & Hin & Ht & ->).
    apply fold_in_target_Some_inv in Ht as (Hhd & Htask & Hvol).
    split; [done|]. by exists c.
  - intros i row c Hin Hhd Hvol. apply kept_elem. split; [done|].
    destruct (fold_in_target cd row) as [c'|] eqn:Ht; [|done].
    apply fold_in_target_Some_inv in Ht as (Hhd' & _ & Hle).
    rewrite Hhd in Hhd'. injection Hhd' as <-.
    rewrite Hvol in Hle. apply Qle_bool_iff in Hle. by vm_compute in Hle.
Qed.

Lemma append_guarded_by_matched_volume_witness :
  NoDup (DataFrame [lordshill_journey; portswood_journey]).*1
  ∧ ∃ app js',
      update_courier_rounds full_round
        (DataFrame [lordshill_journey; portswood_journey]) []
      = Ok (full_round ++ app, js')
      ∧ Forall (λ a, Volume a = 0.036%Q) app.
Proof.
  assert (Hnd : NoDup (DataFrame [lordshill_journey; portswood_journey]).*1).
  { apply (bool_decide_unpack _). vm_compute. exact I. }
  split; [exact Hnd|].
  destruct (append_guarded_by_matched_volume full_round
              (DataFrame [lordshill_journey; portswood_journey]) [] Hnd)
    as (app & js' & Hrun & Hall & _).
  exists app, js'. split; [done|].
  eapply Forall_impl; [exact Hall|]. by intros a [Ha _].
Defined.

(** C1 as stated fails: a round that stands at 5.3 - 0.01 takes one more
    sample, because its first stop alone carries 3, and ends above 5.3. *)
Lemma round_total_exceeds_capacity :
  (round_total (KStr "R1") (KStr "V1") full_round == 5.3 - 0.01)%Q
  ∧ ∃ cd',
      update_courier_rounds full_round (DataFrame [lordshill_journey]) []
      = Ok (cd', [])
      ∧ ¬ (round_total (KStr "R1") (KStr "V1") cd' <= 5.3)%Q.
Proof.
  split; [by vm_compute|].
  eexists. split; [vm_compute; reflexivity|].
  intros Hle. apply Qle_bool_iff in Hle. by vm_compute in Hle.
Qed.

(** C10: the courier table that comes back is the input table followed by
    the appended entries, and the journey table that comes back is the
    input journey table with some rows left out: the rows that stay are
    unchanged and in their original order. *)
Theorem update_courier_rounds_frame cd js sd cd' js' :
  update_courier_rounds cd js sd = Ok (cd', js') →
  (∃ app, cd' = cd ++ app) ∧ js' `sublist_of` js.
Proof. apply consolidate_loop_frame. Qed.

Lemma update_courier_rounds_frame_witness :
  (∃ app, full_round ++ [collected lordshill_stop lordshill_journey]
          = full_round ++ app)
  ∧ [(1%nat, portswood_journey)]
      `sublist_of` DataFrame [lordshill_journey; portswood_journey].
Proof.
  apply (update_courier_rounds_frame full_round
           (DataFrame [lordshill_journey; portswood_journey]) []).
  vm_compute. reflexivity.
Defined.

End consolidation.

(** ** The transit graph *)

Section graph.
Implicit Types (G : DiGraph) (u v : key) (w : option time).
Implicit Types (rows : list TransitRow).

Lemma add_node_edge n G u v :
  edge_weight (add_node n G) u v = edge_weight G u v.
Proof.
  unfold add_node, edge_weight. destruct (G !! n) eqn:Hn; [done|].
  destruct (decide (n = u)) as [->|Hne].
  - by rewrite lookup_insert_eq, Hn.
  - by rewrite lookup_insert_ne.
Qed.

Lemma add_edge_weight u v w G u' v' :
  edge_weight (add_edge u v w G) u' v'
  = if decide (u = u' ∧ v = v') then Some w else edge_weight G u' v'.
Proof.
  unfold add_edge.
  set (G2 := add_node v (add_node u G)).
  assert (HG2 : ∀ a b, edge_weight G2 a b = edge_weight G a b).
  { intros a b. unfold G2. by rewrite !add_node_edge. }
  rewrite <- HG2. unfold edge_weight.
  destruct (decide (u = u')) as [<-|Hu].
  - rewrite lookup_insert_eq. simpl.
    destruct (decide (v = v')) as [<-|Hv].
    + rewrite lookup_insert_eq. by rewrite decide_True.
    + rewrite lookup_insert_ne by done. rewrite decide_False by tauto.
      by destruct (G2 !! u).
  - rewrite lookup_insert_ne by done. by rewrite decide_False by tauto.
Qed.

Lemma adjacent_cons rows row u v w :
  adjacent rows u v w → adjacent (row :: rows) u v w.
Proof.
  intros (i & r & r' & H1 & H2 & H). by exists (S i), r, r'.
Qed.

(** An edge of the graph was there before or joins two adjacent rows. *)
Lemma chain_edge_inv rows : ∀ G u v w,
  edge_weight (chain rows G) u v = Some w →
  edge_weight G u v = Some w ∨ adjacent rows u v w.
Proof.
  induction rows as [|row rest IH]; intros G u v w Hw; [by left|].
  destruct rest as [|next_row rest']; [by left|].
  cbn [chain] in Hw. apply IH in Hw as [Hw|Hw].
  - rewrite add_edge_weight in Hw. case_decide as Huv.
    + destruct Huv as [<- <-]. simplify_eq. right.
      by exists 0, row, next_row.
    + by left.
  - right. by apply adjacent_cons.
Qed.

Lemma chain_edge_mono rows : ∀ G u v,
  is_Some (edge_weight G u v) → is_Some (edge_weight (chain rows G) u v).
Proof.
  induction rows as [|row rest IH]; intros G u v Hw; [done|].
  destruct rest as [|next_row rest']; [done|].
  cbn [chain]. apply IH. rewrite add_edge_weight. by case_decide.
Qed.

(** Two adjacent rows are joined by an edge. *)
Lemma chain_edge_adjacent rows : ∀ G u v w,
  adjacent rows u v w → is_Some (edge_weight (chain rows G) u v).
Proof.
  induction rows as [|row rest IH]; intros G u v w (i & r & r' & H1 & H2 & Hu & Hv & Hw).
  { by rewrite lookup_nil in H1. }
  destruct rest as [|next_row rest'].
  { destruct i; simpl in H1, H2; simplify_eq. }
  change (chain (row :: next_row :: rest') G)
    with (chain (next_row :: rest')
            (add_edge (r_Postcode row) (r_Postcode next_row)
                      (Time_to_Next_Stop row) G)).
  destruct i as [|i].
  - simpl in H1, H2. simplify_eq. apply chain_edge_mono.
    rewrite add_edge_weight. by rewrite decide_True.
  - eapply IH. by exists i, r, r'.
Qed.

Lemma build_graph_loop rows : ∀ pre G,
  for_each
    (λ G '(index, row),
       if bool_decide (Z.of_nat index < Z.of_nat (length (pre ++ rows)) - 1)%Z then
         next_row ← iloc (pre ++ rows) (index + 1);
         let next_stop := r_Postcode next_row in
         mret (add_edge (r_Postcode row) next_stop (Time_to_Next_Stop row) G)
       else mret G)
    (imap (λ i r, (length pre + i, r)) rows) G
  = Ok (chain rows G).
Proof.
  induction rows as [|row rest IH]; intros pre G; [done|].
  rewrite imap_cons. cbn [for_each].
  destruct rest as [|next_row rest'].
  - rewrite bool_decide_eq_false_2.
    2:{ rewrite length_app. simpl. lia. }
    done.
  - rewrite bool_decide_eq_true_2.
    2:{ rewrite length_app. simpl. lia. }
    assert (Hnext : iloc (pre ++ row :: next_row :: rest') (length pre + 0 + 1)
                    = Ok next_row).
    { unfold iloc. rewrite lookup_app_r by lia.
      by replace (length pre + 0 + 1 - length pre) with 1 by lia. }
    rewrite Hnext. cbn [mbind outcome_bind mret outcome_ret].
    change (chain (row :: next_row :: rest') G)
      with (chain (next_row :: rest')
              (add_edge (r_Postcode row) (r_Postcode next_row)
                        (Time_to_Next_Stop row) G)).
    specialize (IH (pre ++ [row])).
    rewrite <- app_assoc in IH. cbn [app] in IH.
    rewrite <- IH. f_equal.
    apply imap_ext. intros i x _. simpl. rewrite length_app. simpl.
    f_equal. lia.
Qed.

(** Building the graph cannot fail. *)
Lemma build_graph_chain rows : build_graph rows = Ok (chain rows ∅).
Proof. apply (build_graph_loop rows [] ∅). Qed.

Lemma chain_edge_none rows : ∀ G u v,
  (∀ w, ¬ adjacent rows u v w) →
  edge_weight (chain rows G) u v = edge_weight G u v.
Proof.
  induction rows as [|row rest IH]; intros G u v Hno; [done|].
  destruct rest as [|next_row rest']; [done|].
  change (chain (row :: next_row :: rest') G)
    with (chain (next_row :: rest')
            (add_edge (r_Postcode row) (r_Postcode next_row)
                      (Time_to_Next_Stop row) G)).
  rewrite IH.
  - rewrite add_edge_weight. case_decide as Huv; [|done].
    destruct Huv as [<- <-]. destruct (Hno (Time_to_Next_Stop row)).
    by exists 0, row, next_row.
  - intros w Hadj. apply (Hno w). by apply adjacent_cons.
Qed.

Lemma chain_last_weight rows : ∀ G i r r',
  rows !! i = Some r → rows !! S i = Some r' →
  (∀ j r1 r1', i < j → rows !! j = Some r1 → rows !! S j = Some r1' →
               ¬ (r_Postcode r1 = r_Postcode r ∧ r_Postcode r1' = r_Postcode r')) →
  edge_weight (chain rows G) (r_Postcode r) (r_Postcode r')
  = Some (Time_to_Next_Stop r).
Proof.
  induction rows as [|row rest IH]; intros G i r r' Hr Hr' Hlast; [done|].
  destruct rest as [|next_row rest'].
  { destruct i; simpl in Hr, Hr'; simplify_eq. }
  change (chain (row :: next_row :: rest') G)
    with (chain (next_row :: rest')
            (add_edge (r_Postcode row) (r_Postcode next_row)
                      (Time_to_Next_Stop row) G)).
  destruct i as [|i].
  - simpl in Hr, Hr'. simplify_eq. rewrite chain_edge_none.
    + rewrite add_edge_weight. by rewrite decide_True.
    + intros w (j & r1 & r1' & H1 & H2 & Hu & Hv & _).
      apply (Hlast (S j) r1 r1'); [lia|done..].
  - apply (IH _ i); [done..|].
    intros j r1 r1' Hij H1 H2. apply (Hlast (S j)); [lia|done..].
Qed.
End graph.

(** ** Extraction of the journeys *)

Section extraction_facts.
Context (sample_data : list Stop) (vehicle_routes_data : list TransitRow).
Context (manager : RoutingIndexManager) (routing : RoutingModel).
Context (solution : option (nat → nat)).

(** The loops on the tables and the answer of this section: [walk] is
    [van_loop] and [walk_all] is [extract]. *)
Local Abbreviation visit := (visit sample_data vehicle_routes_data).
Local Abbreviation walk :=
  (van_loop sample_data vehicle_routes_data manager routing solution).
Local Abbreviation walk_all :=
  (extract sample_data vehicle_routes_data manager routing solution).
Local Abbreviation recorded := (recorded sample_data vehicle_routes_data).
Local Abbreviation stops_of_van := (stops_of_van manager routing solution).

Lemma visit_depot van st : visit van 0 st = Ok st.
Proof. by destruct st. Qed.

Lemma visit_stop_inv van node total js total' js' :
  node ≠ 0 →
  visit van node (total, js) = Ok (total', js') →
  ∃ v, recorded node v ∧ total' = (total + seconds v.2)%Z
       ∧ js' = js ++ collect van total [v].
Proof.
  intros Hnode. unfold visit. rewrite bool_decide_eq_true_2 by done.
  unfold iloc, recorded.
  destruct (sample_data !! (node - 1)) as [stop|];
    cbn [mbind outcome_bind]; [|done].
  destruct (vehicle_routes_data !! (node - 1)) as [row|];
    cbn [mbind outcome_bind]; [|done].
  unfold getitem, transit_row.
  rewrite bool_decide_eq_false_2 by done.
  rewrite bool_decide_eq_true_2 by done. cbn [mbind outcome_bind].
  destruct (Time_to_Next_Stop row) as [t|] eqn:Ht; cbn; [|done].
  unfold mret, outcome_ret. intros ?; simplify_eq. exists (stop, t). simpl.
  by rewrite Ht.
Qed.

Lemma visit_raises van node st e :
  visit van node st = Raise e → e = IndexError ∨ e = AttributeError.
Proof.
  destruct st as [total js]. unfold visit. case_bool_decide; [|done].
  unfold iloc.
  destruct (sample_data !! (node - 1)) as [stop|];
    cbn [mbind outcome_bind]; [|intros; simplify_eq; by left].
  destruct (vehicle_routes_data !! (node - 1)) as [row|];
    cbn [mbind outcome_bind]; [|intros; simplify_eq; by left].
  unfold getitem, transit_row.
  rewrite bool_decide_eq_false_2 by done.
  rewrite bool_decide_eq_true_2 by done. cbn [mbind outcome_bind].
  destruct (Time_to_Next_Stop row) as [t|]; cbn; [done|].
  intros; simplify_eq; by right.
Qed.

Lemma visit_in_time van node st : visit van node st ≠ OutOfFuel.
Proof.
  destruct st as [total js]. unfold visit. case_bool_decide; [|done].
  unfold iloc.
  destruct (sample_data !! (node - 1)); cbn [mbind outcome_bind]; [|done].
  destruct (vehicle_routes_data !! (node - 1)) as [row|];
    cbn [mbind outcome_bind]; [|done].
  unfold getitem, transit_row.
  rewrite bool_decide_eq_false_2 by done.
  rewrite bool_decide_eq_true_2 by done. cbn [mbind outcome_bind].
  by destruct (Time_to_Next_Stop row).
Qed.

(** One van: the loop emits the journeys of its stops, in the order of
    the route, with the clock of [collect]. *)
Lemma van_loop_collect fuel : ∀ van index total js out,
  walk fuel van index (total, js) = Ok out →
  ∃ visits,
    Forall2 recorded
      (filter (λ node, node ≠ 0) (route manager routing solution fuel index))
      visits
    ∧ out = js ++ collect van total visits.
Proof.
  induction fuel as [|fuel IH]; intros van index total js out Hrun; [done|].
  cbn [van_loop] in Hrun. cbn [route].
  destruct (IsEnd routing index).
  { simplify_eq/=. exists []. split; [constructor|by rewrite app_nil_r]. }
  destruct (visit van (IndexToNode manager index) (total, js))
    as [[total' js']| |] eqn:Hvisit; cbn [mbind outcome_bind] in Hrun; [|done..].
  destruct solution as [next|] eqn:Hsol; [|done].
  apply IH in Hrun as (visits & Hrec & ->).
  destruct (decide (IndexToNode manager index = 0)) as [Hz|Hnz].
  - rewrite Hz, visit_depot in Hvisit. simplify_eq.
    rewrite filter_cons_False by (intros H; by apply H). by exists visits.
  - apply visit_stop_inv in Hvisit as (v & Hv & -> & ->); [|done].
    rewrite filter_cons_True by done. exists (v :: visits). split.
    + by constructor.
    + rewrite <- app_assoc. f_equal. destruct v as [stop t]. done.
Qed.
Lemma van_loop_raises fuel : ∀ van index st e,
  walk fuel van index st = Raise e → e = IndexError ∨ e = AttributeError.
Proof.
  induction fuel as [|fuel IH]; intros van index st e Hrun; [done|].
  cbn [van_loop] in Hrun.
  destruct (IsEnd routing index); [done|].
  destruct (visit van (IndexToNode manager index) st) as [st'| |] eqn:Hvisit;
    cbn [mbind outcome_bind] in Hrun; [|simplify_eq|done].
  - destruct solution as [next|]; [by eapply IH|]. simplify_eq. by right.
  - by eapply visit_raises.
Qed.

(** All vans: one block of journeys per van, in the order of the vans. *)
Lemma extract_blocks fuel n : ∀ a js out,
  for_each
    (λ journeys van_index,
       walk fuel van_index (Start routing van_index) (0%Z, journeys))
    (seq a n) js = Ok out →
  ∃ blocks,
    Forall2 (λ van visits, Forall2 recorded (stops_of_van fuel van) visits)
            (seq a n) blocks
    ∧ out = js ++ concat (zip_with (λ van visits, collect van 0 visits)
                                   (seq a n) blocks).
Proof.
  induction n as [|n IH]; intros a js out Hrun; cbn [seq for_each] in Hrun.
  { simplify_eq. exists []. split; [constructor|by rewrite app_nil_r]. }
  destruct (walk fuel a (Start routing a) (0%Z, js)) as [js1| |] eqn:Hvan;
    cbn [mbind outcome_bind] in Hrun; [|done..].
  apply van_loop_collect in Hvan as (visits & Hrec & ->).
  apply IH in Hrun as (blocks & Hblocks & ->).
  exists (visits :: blocks). split; [by constructor|].
  cbn [seq zip_with concat]. by rewrite <- !app_assoc.
Qed.

Lemma extract_raises fuel n : ∀ a js e,
  for_each
    (λ journeys van_index,
       walk fuel van_index (Start routing van_index) (0%Z, journeys))
    (seq a n) js = Raise e →
  e = IndexError ∨ e = AttributeError.
Proof.
  induction n as [|n IH]; intros a js e Hrun; cbn [seq for_each] in Hrun; [done|].
  destruct (walk fuel a (Start routing a) (0%Z, js)) as [js1| |] eqn:Hvan;
    cbn [mbind outcome_bind] in Hrun; [by eapply IH|simplify_eq|done].
  by eapply van_loop_raises.
Qed.

(** With no solution the first van already fails where it asks for the
    index after its start. *)
Lemma extract_no_solution fuel num_vans :
  solution = None →
  IsEnd routing (Start routing 0) = false →
  IndexToNode manager (Start routing 0) = 0 →
  walk_all (S fuel) (S num_vans) = Raise AttributeError.
Proof.
  intros Hsol Hend Hdepot. unfold extract.
  cbn [seq for_each van_loop].
  by rewrite Hend, Hdepot, visit_depot, Hsol.
Qed.
(** Fuel only cuts the loop off: a run that has finished, with a table or
    with an exception, finishes the same way on more fuel. *)
Lemma van_loop_more_fuel fuel : ∀ van index st r,
  walk fuel van index st = r → r ≠ OutOfFuel →
  walk (S fuel) van index st = r.
Proof.
  induction fuel as [|fuel IH]; intros van index st r Hrun Hr.
  { simpl in Hrun. congruence. }
  change (walk (S (S fuel)) van index st)
    with (if IsEnd routing index then Ok st.2
          else st' ← visit van (IndexToNode manager index) st;
               match solution with
               | None => Raise AttributeError
               | Some next => walk (S fuel) van (next index) st'
               end).
  change (walk (S fuel) van index st)
    with (if IsEnd routing index then Ok st.2
          else st' ← visit van (IndexToNode manager index) st;
               match solution with
               | None => Raise AttributeError
               | Some next => walk fuel van (next index) st'
               end) in Hrun.
  destruct (IsEnd routing index); [done|].
  destruct (visit van (IndexToNode manager index) st) as [st'| |];
    cbn [mbind outcome_bind] in *; [|done..].
  destruct solution as [next|]; [|done]. by apply IH.
Qed.

Lemma extract_more_fuel fuel n : ∀ a js r,
  for_each
    (λ journeys van_index,
       walk fuel van_index (Start routing van_index) (0%Z, journeys))
    (seq a n) js = r →
  r ≠ OutOfFuel →
  for_each
    (λ journeys van_index,
       walk (S fuel) van_index (Start routing van_index) (0%Z, journeys))
    (seq a n) js = r.
Proof.
  induction n as [|n IH]; intros a js r Hrun Hr; [done|].
  cbn [seq for_each] in *.
  destruct (walk fuel a (Start routing a) (0%Z, js)) as [js1| |] eqn:Hvan;
    cbn [mbind outcome_bind] in Hrun.
  - rewrite (van_loop_more_fuel _ _ _ _ _ Hvan) by done.
    cbn [mbind outcome_bind]. by apply IH.
  - rewrite (van_loop_more_fuel _ _ _ _ _ Hvan) by done. done.
  - congruence.
Qed.
End extraction_facts.


(** ** The clock of a van *)

Section clock.
Implicit Types (visits : list (Stop * time)) (total : Z).

Lemma seconds_nonneg t : (0 <= seconds t)%Z.
Proof. unfold seconds. lia. Qed.

Lemma hours_mono a b : (a <= b)%Z → (hours a <= hours b)%Q.
Proof. intros Hab. unfold hours, Qle. simpl. lia. Qed.

Lemma collect_lower_bound van visits : ∀ total,
  Forall (λ j, (hours total <= Time_of_Collection j)%Q) (collect van total visits).
Proof.
  induction visits as [|[stop t] visits IH]; intros total; [constructor|].
  cbn [collect]. pose proof (seconds_nonneg t). constructor.
  - simpl. apply hours_mono. lia.
  - eapply Forall_impl; [apply IH|]. intros j Hj. simpl in Hj.
    eapply Qle_trans; [|exact Hj]. apply hours_mono. lia.
Qed.

Lemma collect_sorted van visits : ∀ total,
  Sorted Qle (Time_of_Collection <$> collect van total visits).
Proof.
  induction visits as [|[stop t] visits IH]; intros total; [constructor|].
  cbn [collect]. rewrite fmap_cons. constructor; [apply IH|].
  pose proof (collect_lower_bound van visits (total + seconds t)) as Hlow.
  destruct (collect van (total + seconds t) visits) as [|j js]; [constructor|].
  rewrite fmap_cons. constructor. by apply Forall_cons in Hlow as [Hj _].
Qed.

Lemma collect_label van visits : ∀ total,
  Forall (λ j, Van_Collecting j = "Van " +:+ pretty (van + 1))
         (collect van total visits).
Proof.
  induction visits as [|[stop t] visits IH]; intros total; constructor; [done|].
  apply IH.
Qed.

(** The clock at the [k]-th stop: the durations recorded for the stops up
    to it, added from zero, in hours. *)
Lemma collect_time van visits : ∀ total k j,
  collect van total visits !! k = Some j →
  Time_of_Collection j
  = hours (total + foldr Z.add 0 ((seconds ∘ snd) <$> take (S k) visits))%Z.
Proof.
  induction visits as [|[stop t] visits IH]; intros total k j Hk; [done|].
  cbn [collect] in Hk. destruct k as [|k].
  - simpl in Hk. simplify_eq. simpl. destruct visits; simpl; f_equal; lia.
  - simpl in Hk. apply IH in Hk. rewrite Hk. f_equal.
    rewrite (firstn_cons (S k)). rewrite fmap_cons. simpl. lia.
Qed.

Lemma van_label_inj van van' :
  "Van " +:+ pretty (van + 1) = "Van " +:+ pretty (van' + 1) → van = van'.
Proof.
  intros H. apply String.app_inj in H. apply pretty_nat_inj in H. lia.
Qed.

Lemma blocks_label a n : ∀ blocks j,
  j ∈ concat (zip_with (λ van visits, collect van 0 visits) (seq a n) blocks) →
  ∃ van, a ≤ van ∧ Van_Collecting j = "Van " +:+ pretty (van + 1).
Proof.
  revert a. induction n as [|n IH]; intros a blocks j Hj; [by apply elem_of_nil in Hj|].
  destruct blocks as [|visits blocks]; [by apply elem_of_nil in Hj|].
  cbn [seq zip_with concat] in Hj. apply elem_of_app in Hj as [Hj|Hj].
  - exists a. split; [done|].
    pose proof (collect_label a visits 0) as Hl.
    rewrite Forall_forall in Hl. by apply Hl.
  - apply IH in Hj as (van & Hle & Hl). exists van. split; [lia|done].
Qed.

(** Within the rows of one van label the hours never go down. *)
Lemma blocks_sorted label n : ∀ a blocks,
  Sorted Qle
    (Time_of_Collection <$>
       filter (λ j, Van_Collecting j = label)
         (concat (zip_with (λ van visits, collect van 0 visits) (seq a n) blocks))).
Proof.
  induction n as [|n IH]; intros a blocks; [constructor|].
  destruct blocks as [|visits blocks]; [constructor|].
  cbn [seq zip_with concat]. rewrite filter_app.
  pose proof (collect_label a visits 0) as Hl.
  destruct (decide (label = "Van " +:+ pretty (a + 1))) as [->|Hne].
  - rewrite filter_all by done.
    rewrite filter_none.
    + rewrite app_nil_r. apply collect_sorted.
    + apply Forall_forall. intros j Hin Hj.
      apply blocks_label in Hin as (van & Hle & Hvan).
      rewrite Hvan in Hj. apply van_label_inj in Hj. lia.
  - rewrite (filter_none _ (collect a 0 visits)).
    + apply IH.
    + eapply Forall_impl; [exact Hl|]. simpl. congruence.
Qed.
End clock.

(** ** The steps of the pipeline *)

Section pipeline.
Context (ortools : pywrapcp).
Implicit Types (sample_data : list Stop) (vehicle_routes_data : list TransitRow).

Lemma DataFrame_rows {A} (l : list A) : (DataFrame l).*2 = l.
Proof.
  unfold DataFrame. rewrite fmap_imap.
  rewrite (imap_ext _ (λ _ x, x) l) by done.
  induction l as [|x l IH]; [done|]. rewrite imap_cons. f_equal. apply IH.
Qed.

Lemma imap_labels {A} (l : list A) : ∀ (g : nat → nat) m,
  (∀ i, g i = m + i) → imap (λ i _, g i) l = seq m (length l).
Proof.
  induction l as [|x l IH]; intros g m Hg; [done|].
  rewrite imap_cons. simpl. f_equal; [rewrite Hg; lia|].
  apply (IH (g ∘ S)). intros i. simpl. rewrite Hg. lia.
Qed.

Lemma DataFrame_labels {A} (l : list A) : (DataFrame l).*1 = seq 0 (length l).
Proof.
  unfold DataFrame. rewrite fmap_imap. by apply (imap_labels l (λ i, i)).
Qed.

(** The journey table is a list of blocks, one per van. *)
Lemma assign_journeys_blocks fuel sample_data vehicle_routes_data num_vans out :
  assign_journeys ortools fuel sample_data vehicle_routes_data num_vans = Ok out →
  let G := chain vehicle_routes_data ∅ in
  let manager := new_RoutingIndexManager ortools (size G) num_vans 0 in
  let routing := new_RoutingModel ortools manager in
  let solution :=
    SolveWithParameters ortools routing (distance_callback G manager) 10 in
  ∃ blocks,
    Forall2 (λ van_index visits,
               Forall2 (recorded sample_data vehicle_routes_data)
                       (stops_of_van manager routing solution fuel van_index)
                       visits)
            (seq 0 num_vans) blocks
    ∧ out = DataFrame (concat (zip_with (λ van_index visits,
                                           collect van_index 0 visits)
                                        (seq 0 num_vans) blocks)).
Proof.
  intros Hrun G manager routing solution.
  unfold assign_journeys in Hrun. rewrite build_graph_chain in Hrun.
  cbn [mbind outcome_bind] in Hrun. fold G manager routing solution in Hrun.
  destruct (extract _ _ manager routing solution fuel num_vans)
    as [journeys| |] eqn:Hext; cbn [mbind outcome_bind] in Hrun; [|done..].
  unfold mret, outcome_ret in Hrun. simplify_eq.
  apply extract_blocks in Hext as (blocks & Hblocks & ->).
  by exists blocks.
Qed.

Lemma hours_plus a b : (hours (a + b) == hours a + hours b)%Q.
Proof. unfold hours, Qeq, Qplus. simpl. lia. Qed.

Lemma hours_seconds t : (hours (seconds t) == hms_hours t)%Q.
Proof.
  unfold hours, seconds, hms_hours. rewrite Qmake_Qdiv.
  rewrite !inject_Z_plus, !inject_Z_mult. simpl. field.
Qed.

Lemma hours_sum (ts : list time) :
  (hours (foldr Z.add 0%Z (seconds <$> ts)) == foldr Qplus 0 (hms_hours <$> ts))%Q.
Proof.
  induction ts as [|t ts IH]; [done|].
  rewrite !fmap_cons. cbn [foldr]. by rewrite hours_plus, hours_seconds, IH.
Qed.

(** C7, as the source has it: every van starts its clock at zero; at each
    node it calls at, other than the depot, the clock first gains the time
    to the next stop that the route table records in the row before that
    node, row [node - 1], whichever stop the van has come from; the journey
    reports the clock in hours, the total of the seconds over 3600, which
    is the sum of hours + minutes / 60 + seconds / 3600 of the times
    added. *)
Theorem collection_clock fuel sample_data vehicle_routes_data num_vans out :
  assign_journeys ortools fuel sample_data vehicle_routes_data num_vans = Ok out →
  ∃ G blocks,
    build_graph vehicle_routes_data = Ok G ∧
    let manager := new_RoutingIndexManager ortools (size G) num_vans 0 in
    let routing := new_RoutingModel ortools manager in
    let solution :=
      SolveWithParameters ortools routing (distance_callback G manager) 10 in
    Forall2 (λ van_index visits,
               Forall2 (λ node v,
                          sample_data !! (node - 1) = Some v.1
                          ∧ Time_to_Next_Stop <$> vehicle_routes_data !! (node - 1)
                            = Some (Some v.2))
                       (stops_of_van manager routing solution fuel van_index)
                       visits)
            (seq 0 num_vans) blocks
    ∧ out = DataFrame (concat (zip_with (λ van_index visits,
                                           collect van_index 0 visits)
                                        (seq 0 num_vans) blocks))
    ∧ ∀ van_index visits k j,
        blocks !! van_index = Some visits →
        collect van_index 0 visits !! k = Some j →
        Time_of_Collection j
        = Qmake (foldr Z.add 0%Z ((seconds ∘ snd) <$> take (S k) visits)) 3600
        ∧ (Time_of_Collection j
           == foldr Qplus 0 ((hms_hours ∘ snd) <$> take (S k) visits))%Q.
Proof.
  intros Hrun. apply assign_journeys_blocks in Hrun as (blocks & Hblocks & ->).
  exists (chain vehicle_routes_data ∅), blocks.
  split; [apply build_graph_chain|]. split; [exact Hblocks|]. split; [done|].
  intros van_index visits k j _ Hk. apply collect_time in Hk.
  rewrite Z.add_0_l in Hk. split; [exact Hk|].
  rewrite Hk, (list_fmap_compose snd seconds), (list_fmap_compose snd hms_hours).
  apply hours_sum.
Qed.

(** C6: in the journey table the rows of one van, in the order they were
    emitted, have collection times that never decrease. *)
Theorem collection_times_nondecreasing fuel sample_data vehicle_routes_data
    num_vans out :
  assign_journeys ortools fuel sample_data vehicle_routes_data num_vans = Ok out →
  ∀ label,
    Sorted Qle (Time_of_Collection <$>
                  filter (λ j, Van_Collecting j = label) out.*2).
Proof.
  intros Hrun label.
  apply assign_journeys_blocks in Hrun as (blocks & _ & ->).
  rewrite DataFrame_rows. apply blocks_sorted.
Qed.

Lemma assign_journeys_raises fuel sample_data vehicle_routes_data num_vans e :
  assign_journeys ortools fuel sample_data vehicle_routes_data num_vans = Raise e →
  e = IndexError ∨ e = AttributeError.
Proof.
  unfold assign_journeys. rewrite build_graph_chain. cbn [mbind outcome_bind].
  destruct (extract _ _ _ _ _ fuel num_vans) as [journeys| |] eqn:Hext;
    cbn [mbind outcome_bind]; [done| |done].
  intros ?; simplify_eq. by eapply extract_raises.
Qed.


(** C9, as the source has it: when the solver returns no solution, the
    first van's loop fails where it asks the missing solution for the next
    index, with an [AttributeError]; no journey table comes back and the
    later steps do not run. *)
Theorem no_solution_raises fuel sample_data vehicle_routes_data num_vans G :
  build_graph vehicle_routes_data = Ok G →
  let manager := new_RoutingIndexManager ortools (size G) (S num_vans) 0 in
  let routing := new_RoutingModel ortools manager in
  SolveWithParameters ortools routing (distance_callback G manager) 10 = None →
  IsEnd routing (Start routing 0) = false →
  IndexToNode manager (Start routing 0) = 0 →
  assign_journeys ortools (S fuel) sample_data vehicle_routes_data (S num_vans)
  = Raise AttributeError
  ∧ ∀ courier_data,
      main ortools (S fuel) sample_data vehicle_routes_data courier_data (S num_vans)
      = Raise AttributeError.
Proof.
  intros HG manager routing Hsol Hend Hdepot.
  assert (Hrun : assign_journeys ortools (S fuel) sample_data vehicle_routes_data
                   (S num_vans) = Raise AttributeError).
  { unfold assign_journeys. rewrite HG. cbn [mbind outcome_bind].
    fold manager routing. by rewrite extract_no_solution. }
  split; [done|]. intros courier_data. unfold main. by rewrite Hrun.
Qed.

Lemma distance_callback_edge G manager from_index to_index :
  distance_callback G manager from_index to_index
  = match edge_weight G (KInt (Z.of_nat (IndexToNode manager from_index)))
                        (KInt (Z.of_nat (IndexToNode manager to_index))) with
    | Some weight => Ok weight
    | None => Raise KeyError
    end.
Proof.
  unfold distance_callback, edge_weight.
  by destruct (G !! _) as [successors|].
Qed.

(** C5, as the source has it: the callback has no fallback. It returns a
    cost only for two nodes whose numbers stand in consecutive rows of the
    postcode column, the cost being the time recorded in such a row; for
    every other pair it raises [KeyError]. *)
Theorem distance_callback_adjacent_or_KeyError vehicle_routes_data manager
    from_index to_index :
  ∃ G, build_graph vehicle_routes_data = Ok G ∧
    let from_node := KInt (Z.of_nat (IndexToNode manager from_index)) in
    let to_node := KInt (Z.of_nat (IndexToNode manager to_index)) in
    (∀ weight, distance_callback G manager from_index to_index = Ok weight →
               adjacent vehicle_routes_data from_node to_node weight)
    ∧ (∀ weight, adjacent vehicle_routes_data from_node to_node weight →
                 ∃ weight',
                   distance_callback G manager from_index to_index = Ok weight')
    ∧ ((∀ weight, ¬ adjacent vehicle_routes_data from_node to_node weight) →
       distance_callback G manager from_index to_index = Raise KeyError).
Proof.
  exists (chain vehicle_routes_data ∅). split; [apply build_graph_chain|].
  intros from_node to_node. rewrite distance_callback_edge.
  fold from_node to_node. split; [|split].
  - intros weight Hw.
    destruct (edge_weight _ from_node to_node) as [w|] eqn:He; [|done].
    simplify_eq. by apply chain_edge_inv in He as [He|He].
  - intros weight Hadj.
    destruct (chain_edge_adjacent _ ∅ _ _ _ Hadj) as [w ->]. by exists w.
  - intros Hno.
    destruct (edge_weight _ from_node to_node) as [w|] eqn:He; [|done].
    apply chain_edge_inv in He as [He|He]; [done|]. by destruct (Hno w).
Qed.

(** C2: the step reads the column "Time to Next Stop" from the rows of the
    journey table, which has no such column: on any journey table with a
    row left it raises [KeyError] where the sum was to be returned. *)
Theorem calculate_total_time_journeys_KeyError (ir : nat * Journey)
    (optimized_journeys : Frame Journey) vehicle_routes_data :
  calculate_total_time (ir :: optimized_journeys) vehicle_routes_data
  = Raise KeyError.
Proof. reflexivity. Qed.

(** On a table that has the column, the route table itself, the same
    function adds the durations up. *)
Lemma calculate_total_time_sums (rows : Frame TransitRow) vehicle_routes_data :
  ∀ ts total,
    Forall2 (λ r t, Time_to_Next_Stop r.2 = Some t) rows ts →
    for_each
      (λ total_time r,
         c ← getitem r.2 "Time to Next Stop";
         time_to_next_stop ← timedelta_of c;
         mret (total_time + time_to_next_stop)%Z)
      rows total
    = Ok (total + foldr Z.add 0 (seconds <$> ts))%Z.
Proof.
  induction rows as [|[i r] rows IH]; intros ts total Hts.
  { apply Forall2_nil_inv_l in Hts as ->. simpl. by rewrite Z.add_0_r. }
  apply Forall2_cons_inv_l in Hts as (t & ts' & Ht & Hts & ->).
  cbn [for_each snd]. simpl in Ht.
  change (getitem r "Time to Next Stop")
    with (Ok (A := cell) (match Time_to_Next_Stop r with
                          | Some t => CTime t
                          | None => CNaN
                          end)).
  rewrite Ht. cbn [mbind outcome_bind timedelta_of mret outcome_ret].
  rewrite (IH ts') by done. rewrite fmap_cons. cbn [foldr].
  by rewrite Z.add_assoc.
Qed.
Lemma assign_journeys_more_fuel fuel sample_data vehicle_routes_data num_vans r :
  assign_journeys ortools fuel sample_data vehicle_routes_data num_vans = r →
  r ≠ OutOfFuel →
  assign_journeys ortools (S fuel) sample_data vehicle_routes_data num_vans = r.
Proof.
  unfold assign_journeys. rewrite build_graph_chain. cbn [mbind outcome_bind].
  unfold extract. intros Hrun Hr.
  destruct (for_each _ (seq 0 num_vans) []) as [journeys| |] eqn:Hext in Hrun;
    cbn [mbind outcome_bind] in Hrun.
  - by rewrite (extract_more_fuel _ _ _ _ _ _ _ _ _ _ Hext).
  - by rewrite (extract_more_fuel _ _ _ _ _ _ _ _ _ _ Hext).
  - congruence.
Qed.

(** The journey table handed on to the consolidation has distinct labels. *)
Lemma assign_journeys_labels fuel sample_data vehicle_routes_data num_vans out :
  assign_journeys ortools fuel sample_data vehicle_routes_data num_vans = Ok out →
  NoDup out.*1.
Proof.
  intros Hrun. apply assign_journeys_blocks in Hrun as (blocks & _ & ->).
  rewrite DataFrame_labels. apply NoDup_seq.
Qed.
End pipeline.

(** ** The properties on the example tables *)

Lemma collection_clock_witness :
  assign_journeys two_vans 10 three_samples four_stops 2 = Ok two_van_journeys
  ∧ ∃ blocks,
      two_van_journeys
      = DataFrame (concat (zip_with (λ van_index visits, collect van_index 0 visits)
                                    (seq 0 2) blocks)).
Proof.
  assert (Hrun : assign_journeys two_vans 10 three_samples four_stops 2
                 = Ok two_van_journeys) by (vm_compute; reflexivity).
  split; [exact Hrun|].
  destruct (collection_clock two_vans 10 three_samples four_stops 2
              two_van_journeys Hrun) as (G & blocks & _ & _ & Hout & _).
  by exists blocks.
Defined.

(** C7 as stated fails: the first van goes from the depot to node 2 and
    then to node 1. The code adds the times of the rows before the nodes
    reached, rows 1 and 0: 0:15, then 0:10 more. Keyed by the stop just
    left, the clock would add the times of rows 0 and 2: 0:10, then 0:05
    more. *)
Lemma clock_not_keyed_by_departed_stop :
  assign_journeys two_vans 10 three_samples four_stops 2 = Ok two_van_journeys
  ∧ (let manager := new_RoutingIndexManager two_vans 4 2 0 in
     let routing := new_RoutingModel two_vans manager in
     route manager routing
       (SolveWithParameters two_vans routing
          (distance_callback (chain four_stops ∅) manager) 10)
       10 (Start routing 0)
     = [0; 2; 1])
  ∧ Time_of_Collection <$>
      filter (λ j, Van_Collecting j = "Van 1") two_van_journeys.*2
    = [Qmake 900 3600; Qmake 1500 3600]
  ∧ departed_clock four_stops 0 0 [0; 2; 1] = [Qmake 600 3600; Qmake 900 3600]
  ∧ Time_of_Collection <$>
      filter (λ j, Van_Collecting j = "Van 1") two_van_journeys.*2
    ≠ departed_clock four_stops 0 0 [0; 2; 1].
Proof.
  assert (Hcode : Time_of_Collection <$>
                    filter (λ j, Van_Collecting j = "Van 1") two_van_journeys.*2
                  = [Qmake 900 3600; Qmake 1500 3600])
    by (vm_compute; reflexivity).
  assert (Hclaim : departed_clock four_stops 0 0 [0; 2; 1]
                   = [Qmake 600 3600; Qmake 900 3600])
    by (vm_compute; reflexivity).
  split; [vm_compute; reflexivity|]. split; [vm_compute; reflexivity|].
  split; [exact Hcode|]. split; [exact Hclaim|].
  rewrite Hcode, Hclaim. discriminate.
Qed.

Lemma collection_times_nondecreasing_witness :
  assign_journeys two_vans 10 three_samples four_stops 2 = Ok two_van_journeys
  ∧ ∀ label,
      Sorted Qle (Time_of_Collection <$>
                    filter (λ j, Van_Collecting j = label) two_van_journeys.*2).
Proof.
  assert (Hrun : assign_journeys two_vans 10 three_samples four_stops 2
                 = Ok two_van_journeys) by (vm_compute; reflexivity).
  split; [exact Hrun|].
  exact (collection_times_nondecreasing two_vans 10 three_samples four_stops 2
           two_van_journeys Hrun).
Defined.

Lemma no_solution_raises_witness :
  build_graph four_stops = Ok (chain four_stops ∅)
  ∧ assign_journeys no_solution 10 three_samples four_stops 2
    = Raise AttributeError.
Proof.
  assert (HG : build_graph four_stops = Ok (chain four_stops ∅))
    by (vm_compute; reflexivity).
  split; [exact HG|].
  apply (no_solution_raises no_solution 9 three_samples four_stops 1
           (chain four_stops ∅) HG); reflexivity.
Defined.

(** C9 as stated fails: the failure is not of the class the specification
    names. The code has no such class, the error is the one Python raises
    on [None.Value]. *)
Lemma no_solution_is_not_AssignmentError :
  assign_journeys no_solution 10 three_samples four_stops 2 = Raise AttributeError
  ∧ ¬ fails_with "AssignmentError"
        (assign_journeys no_solution 10 three_samples four_stops 2).
Proof.
  assert (Hrun : assign_journeys no_solution 10 three_samples four_stops 2
                 = Raise AttributeError) by (vm_compute; reflexivity).
  split; [exact Hrun|]. rewrite Hrun. intros (e & He & Hcls).
  injection He as <-. discriminate Hcls.
Qed.


(** C5 as stated fails: where the postcode column holds the node numbers
    the callback answers for the consecutive nodes 0 and 1 and raises for
    the nodes 0 and 2; where it holds postcodes it raises for every pair. *)
Lemma distance_callback_raises_KeyError :
  (∃ G, build_graph numbered_stops = Ok G
        ∧ distance_callback G {| IndexToNode := λ index, index |} 0 1
          = Ok (Some (mkTime 0 10 0))
        ∧ distance_callback G {| IndexToNode := λ index, index |} 0 2
          = Raise KeyError)
  ∧ (∃ G, build_graph four_stops = Ok G
          ∧ distance_callback G {| IndexToNode := λ index, index |} 0 1
            = Raise KeyError).
Proof.
  split.
  - exists (chain numbered_stops ∅). split; [apply build_graph_chain|].
    split; vm_compute; reflexivity.
  - exists (chain four_stops ∅). split; [apply build_graph_chain|].
    vm_compute. reflexivity.
Qed.

(** The run of [main] on the four stops, with no courier rounds: the
    journeys are assigned, none is folded in, and the last step raises. *)
Lemma main_four_stops_KeyError :
  assign_journeys two_vans 10 three_samples four_stops 2 = Ok two_van_journeys
  ∧ update_courier_rounds [] two_van_journeys three_samples
    = Ok ([], two_van_journeys)
  ∧ main two_vans 10 three_samples four_stops [] 2 = Raise KeyError.
Proof. repeat split; vm_compute; reflexivity. Qed.


(** * Further properties of the steps *)

(** ** The nodes and weights of the graph *)

Section graph_nodes.
Implicit Types (G : DiGraph) (u v : key) (w : option time).
Implicit Types (rows : list TransitRow).

Lemma add_node_dom n G : dom (add_node n G) = {[n]} ∪ dom G.
Proof.
  unfold add_node. destruct (G !! n) eqn:Hn.
  - assert (n ∈ dom G) by (apply elem_of_dom; eauto). set_solver.
  - by rewrite dom_insert_L.
Qed.

Lemma add_edge_dom u v w G : dom (add_edge u v w G) = {[u; v]} ∪ dom G.
Proof.
  unfold add_edge. rewrite dom_insert_L, !add_node_dom. set_solver.
Qed.

Lemma chain_dom rows : ∀ G,
  dom (chain rows G)
  = (if decide (2 ≤ length rows) then list_to_set (r_Postcode <$> rows) else ∅)
    ∪ dom G.
Proof.
  induction rows as [|row rest IH]; intros G.
  { simpl. set_solver. }
  destruct rest as [|next_row rest'].
  { simpl. set_solver. }
  change (chain (row :: next_row :: rest') G)
    with (chain (next_row :: rest')
            (add_edge (r_Postcode row) (r_Postcode next_row)
                      (Time_to_Next_Stop row) G)).
  rewrite IH, add_edge_dom.
  destruct (decide (2 ≤ length (row :: next_row :: rest'))) as [_|Hn];
    [|simpl in Hn; lia].
  case_decide; rewrite !fmap_cons; simpl; [set_solver|].
  destruct rest'; [|simpl in *; lia]. simpl. set_solver.
Qed.

(** X1: The nodes of the graph are the postcodes of the route table, each
    once, provided the table has two rows or more; a table of fewer rows
    gives the graph without nodes, so [len(G)] is 0. *)
Theorem build_graph_nodes rows :
  ∃ G, build_graph rows = Ok G
       ∧ dom G = (if decide (2 ≤ length rows)
                  then list_to_set (r_Postcode <$> rows) else ∅)
       ∧ size G = (if decide (2 ≤ length rows)
                   then length (remove_dups (r_Postcode <$> rows)) else 0).
Proof.
  exists (chain rows ∅). split; [apply build_graph_chain|].
  assert (Hdom : dom (chain rows ∅)
                 = if decide (2 ≤ length rows)
                   then list_to_set (r_Postcode <$> rows) else ∅).
  { rewrite chain_dom, dom_empty_L. set_solver. }
  split; [exact Hdom|].
  rewrite <- size_dom, Hdom. case_decide; [|done].
  assert (Hset : list_to_set (r_Postcode <$> rows)
                 =@{gset key} list_to_set (remove_dups (r_Postcode <$> rows))).
  { apply set_eq. intros k. by rewrite !elem_of_list_to_set, elem_of_remove_dups. }
  rewrite Hset. apply size_list_to_set, NoDup_remove_dups.
Qed.

(** X2: When the same two postcodes follow each other at several places of
    the route table, the edge keeps the time of the last such place. *)
Theorem build_graph_last_weight rows i r r' :
  rows !! i = Some r → rows !! S i = Some r' →
  (∀ j r1 r1', i < j → rows !! j = Some r1 → rows !! S j = Some r1' →
               ¬ (r_Postcode r1 = r_Postcode r ∧ r_Postcode r1' = r_Postcode r')) →
  ∃ G, build_graph rows = Ok G
       ∧ edge_weight G (r_Postcode r) (r_Postcode r') = Some (Time_to_Next_Stop r).
Proof.
  intros Hr Hr' Hlast. exists (chain rows ∅).
  split; [apply build_graph_chain|]. by apply (chain_last_weight rows ∅ i).
Qed.

(** X3: With a postcode column of text the callback has no pair of nodes to
    answer for: whatever the indices, it raises [KeyError]. *)
Theorem distance_callback_text_postcodes rows :
  (∀ r, r ∈ rows → ∃ s, r_Postcode r = KStr s) →
  ∃ G, build_graph rows = Ok G
       ∧ ∀ manager from_index to_index,
           distance_callback G manager from_index to_index = Raise KeyError.
Proof.
  intros Htext. exists (chain rows ∅). split; [apply build_graph_chain|].
  intros manager from_index to_index. rewrite distance_callback_edge.
  destruct (edge_weight _ _ _) as [w|] eqn:He; [|done].
  apply chain_edge_inv in He as [He|(i & r & r' & Hr & _ & Hu & _)]; [done|].
  apply list_elem_of_lookup_2 in Hr. destruct (Htext r Hr) as [s Hs]. congruence.
Qed.
End graph_nodes.

(** ** More on the consolidation *)

Section consolidation_more.
Implicit Types (cd app : list CourierEntry) (fr js : Frame Journey).
Implicit Types (row : Journey) (c : CourierEntry).

Lemma consolidate_raises cd fr ir e :
  consolidate (cd, fr) ir = Raise e → e = KeyError.
Proof.
  destruct ir as [i row]. unfold consolidate, mret, outcome_ret.
  case_bool_decide as Hin; [|done].
  destruct (filter (λ c, Postcode c = Source_Postcode row) cd) as [|c l] eqn:Hf.
  { apply list_elem_of_fmap in Hin as (c & Hpc & Hc).
    assert (c ∈ filter (λ c, Postcode c = Source_Postcode row) cd)
      by (by apply list_elem_of_filter).
    rewrite Hf in H. by apply elem_of_nil in H. }
  unfold iloc. cbn [lookup list_lookup mbind outcome_bind].
  destruct (_ || _); [|done]. destruct (Qle_bool _ _); [|done].
  unfold frame_drop. case_bool_decide; cbn [mbind outcome_bind]; [done|].
  by intros ?; simplify_eq.
Qed.

Lemma consolidate_in_time st ir : consolidate st ir ≠ OutOfFuel.
Proof.
  destruct st as [cd fr], ir as [i row]. unfold consolidate, mret, outcome_ret.
  case_bool_decide; [|done]. unfold iloc.
  destruct (_ !! 0); cbn [mbind outcome_bind]; [|done].
  destruct (_ || _); [|done]. destruct (Qle_bool _ _); [|done].
  unfold frame_drop. by case_bool_decide.
Qed.

Lemma consolidate_loop_raises rest : ∀ st e,
  for_each consolidate rest st = Raise e → e = KeyError.
Proof.
  induction rest as [|ir rest IH]; intros st e Hrun; [done|].
  cbn [for_each] in Hrun.
  destruct (consolidate st ir) as [st'| |] eqn:Hstep;
    cbn [mbind outcome_bind] in Hrun; [by eapply IH| |done].
  simplify_eq. destruct st. by eapply consolidate_raises.
Qed.

Lemma consolidate_loop_in_time rest : ∀ st,
  for_each consolidate rest st ≠ OutOfFuel.
Proof.
  induction rest as [|ir rest IH]; intros st; [done|].
  cbn [for_each].
  destruct (consolidate st ir) as [st'| |] eqn:Hstep;
    cbn [mbind outcome_bind]; [apply IH|done|].
  by apply consolidate_in_time in Hstep.
Qed.

(** X4: The pass cannot fail on the courier table: the test on the postcode
    column keeps [iloc[0]] within bounds. Its one exception is the
    [KeyError] of [drop], and that needs a journey table in which an index
    label occurs twice. *)
Theorem update_courier_rounds_raises cd js sd e :
  update_courier_rounds cd js sd = Raise e →
  e = KeyError ∧ ¬ NoDup js.*1.
Proof.
  intros Hrun. split.
  - by apply consolidate_loop_raises in Hrun.
  - intros Hnd.
    rewrite update_courier_rounds_reads_input in Hrun by done. done.
Qed.

Lemma appended_kept_length cd js :
  length (appended cd js) + length (kept cd js) = length js.
Proof.
  induction js as [|[i row] js IH]; [done|].
  rewrite appended_cons, kept_cons.
  destruct (fold_in_target cd row); simpl; lia.
Qed.

(** X5: Every journey is accounted for once: it is still in the journey table
    or it has become one appended courier entry. *)
Theorem update_courier_rounds_count cd js sd :
  NoDup js.*1 →
  ∃ app js',
    update_courier_rounds cd js sd = Ok (cd ++ app, js')
    ∧ length app + length js' = length js.
Proof.
  intros Hnd. exists (appended cd js), (kept cd js).
  split; [by apply update_courier_rounds_reads_input|].
  apply appended_kept_length.
Qed.

Lemma appended_postcodes cd js :
  Forall (λ a, Postcode a ∈ Postcode <$> cd) (appended cd js).
Proof.
  apply Forall_forall. intros a Ha.
  apply appended_elem in Ha as (i & row & c & _ & Ht & ->).
  apply fold_in_target_elem in Ht as [Hc Hpc]. simpl.
  apply list_elem_of_fmap. by exists c.
Qed.

(** Entries that sit behind an older entry at the same postcode do not
    change the target of any journey. *)
Lemma fold_in_target_app cd app row :
  Forall (λ a, Postcode a ∈ Postcode <$> cd) app →
  fold_in_target (cd ++ app) row = fold_in_target cd row.
Proof.
  intros Happ. unfold fold_in_target. rewrite filter_app.
  destruct (filter (λ c, Postcode c = Source_Postcode row) cd) as [|c l] eqn:Hf;
    [|done].
  rewrite app_nil_l, filter_none; [done|].
  eapply Forall_impl; [exact Happ|]. intros a Ha Hpa. simpl in *.
  apply list_elem_of_fmap in Ha as (c & Hpc & Hc).
  assert (c ∈ filter (λ c, Postcode c = Source_Postcode row) cd)
    by (apply list_elem_of_filter; split; [congruence|done]).
  rewrite Hf in H. by apply elem_of_nil in H.
Qed.

Lemma nothing_to_fold cd js :
  Forall (λ ir, fold_in_target cd ir.2 = None) js →
  appended cd js = [] ∧ kept cd js = js.
Proof.
  induction 1 as [|[i row] js Hrow _ [IHa IHk]]; [done|].
  simpl in Hrow. by rewrite appended_cons, kept_cons, Hrow, IHa, IHk.
Qed.

(** X6: A second pass over the results of a pass changes nothing: the entries
    just appended are no targets, and the journeys left had none. *)
Theorem update_courier_rounds_twice cd js sd :
  NoDup js.*1 →
  ∃ cd' js',
    update_courier_rounds cd js sd = Ok (cd', js')
    ∧ update_courier_rounds cd' js' sd = Ok (cd', js').
Proof.
  intros Hnd. exists (cd ++ appended cd js), (kept cd js).
  split; [by apply update_courier_rounds_reads_input|].
  rewrite update_courier_rounds_reads_input.
  2:{ eapply sublist_NoDup; [exact Hnd|].
      apply fmap_sublist, sublist_filter. }
  destruct (nothing_to_fold (cd ++ appended cd js) (kept cd js)) as [-> ->].
  - apply Forall_forall. intros [i row] Hin. simpl.
    rewrite fold_in_target_app by apply appended_postcodes.
    by apply kept_elem in Hin as [_ Hnone].
  - by rewrite app_nil_r.
Qed.

Lemma fold_in_target_task cd row c :
  fold_in_target cd row = Some c →
  c ∈ cd ∧ (Task c = "Spare time" ∨ Task c = "Deliver/Collect post").
Proof.
  intros Ht. split; [by apply fold_in_target_elem in Ht as [? _]|].
  by apply fold_in_target_Some_inv in Ht as (_ & ? & _).
Qed.

Lemma consolidate_other_task cd fr ir :
  Forall (λ c, Task c ≠ "Spare time" ∧ Task c ≠ "Deliver/Collect post") cd →
  consolidate (cd, fr) ir = Ok (cd, fr).
Proof.
  intros Htask. destruct ir as [i row]. unfold consolidate, mret, outcome_ret.
  case_bool_decide as Hin; [|done].
  destruct (filter (λ c, Postcode c = Source_Postcode row) cd) as [|c l] eqn:Hf.
  { apply list_elem_of_fmap in Hin as (c & Hpc & Hc).
    assert (c ∈ filter (λ c, Postcode c = Source_Postcode row) cd)
      by (by apply list_elem_of_filter).
    rewrite Hf in H. by apply elem_of_nil in H. }
  unfold iloc. cbn [lookup list_lookup mbind outcome_bind].
  assert (Hc : c ∈ cd).
  { assert (c ∈ filter (λ c, Postcode c = Source_Postcode row) cd)
      by (rewrite Hf; left).
    by apply list_elem_of_filter in H as [_ ?]. }
  rewrite Forall_forall in Htask. destruct (Htask c Hc) as [H1 H2].
  by rewrite !bool_decide_eq_false_2 by done.
Qed.

(** X7: A courier table without a "Spare time" or "Deliver/Collect post" entry
    takes no journey: both tables come back as they were, whatever the
    postcodes, the volumes and the labels. *)
Theorem update_courier_rounds_other_tasks cd js sd :
  Forall (λ c, Task c ≠ "Spare time" ∧ Task c ≠ "Deliver/Collect post") cd →
  update_courier_rounds cd js sd = Ok (cd, js).
Proof.
  intros Htask. unfold update_courier_rounds, iterrows.
  generalize js at 2 3. induction js as [|ir rest IH]; intros fr; [done|].
  cbn [for_each]. rewrite consolidate_other_task by done.
  cbn [mbind outcome_bind]. apply IH.
Qed.

(** X8: The pass treats every journey on its own: the result for a journey
    table in two parts is made of the results for the parts, each run on
    the courier table the pass began with. *)
Theorem update_courier_rounds_app cd js1 js2 sd :
  NoDup (js1 ++ js2).*1 →
  ∃ app1 kept1 app2 kept2,
    update_courier_rounds cd js1 sd = Ok (cd ++ app1, kept1)
    ∧ update_courier_rounds cd js2 sd = Ok (cd ++ app2, kept2)
    ∧ update_courier_rounds cd (js1 ++ js2) sd
      = Ok (cd ++ app1 ++ app2, kept1 ++ kept2).
Proof.
  intros Hnd. pose proof Hnd as Hnd'.
  rewrite fmap_app in Hnd'. apply NoDup_app in Hnd' as (Hnd1 & _ & Hnd2).
  exists (appended cd js1), (kept cd js1), (appended cd js2), (kept cd js2).
  rewrite !update_courier_rounds_reads_input by done.
  split; [done|]. split; [done|].
  unfold appended, kept. by rewrite omap_app, filter_app.
Qed.

(** X9: The volume of the matched entry is read and never written: when it
    allows one more sample it allows any number. All the journeys at the
    postcode of such an entry are folded into its round. *)
Theorem update_courier_rounds_same_postcode cd js sd c :
  NoDup js.*1 →
  Forall (λ ir, head (filter (λ c, Postcode c = Source_Postcode ir.2) cd)
                = Some c) js →
  Task c = "Spare time" ∨ Task c = "Deliver/Collect post" →
  (Volume c + 0.036 <= 5.3)%Q →
  ∃ app,
    update_courier_rounds cd js sd = Ok (cd ++ app, [])
    ∧ length app = length js
    ∧ Forall (λ a, Round_ID a = Round_ID c ∧ Vehicle_ID a = Vehicle_ID c
                   ∧ Volume a = 0.036%Q) app.
Proof.
  intros Hnd Hjs Htask Hvol. exists (appended cd js).
  rewrite update_courier_rounds_reads_input by done.
  assert (Hall : Forall (λ ir, fold_in_target cd ir.2 = Some c) js).
  { eapply Forall_impl; [exact Hjs|]. intros [i row] Hhd.
    by apply fold_in_target_Some. }
  assert (Hres : kept cd js = []
                 ∧ length (appended cd js) = length js
                 ∧ Forall (λ a, Round_ID a = Round_ID c
                                ∧ Vehicle_ID a = Vehicle_ID c
                                ∧ Volume a = 0.036%Q) (appended cd js)).
  { clear Hjs Hnd. induction Hall as [|[i row] js Hrow _ (IHk & IHl & IHa)]; [done|].
    simpl in Hrow. rewrite appended_cons, kept_cons, Hrow.
    split; [done|]. split; [simpl; by f_equal|]. by constructor. }
  destruct Hres as (-> & Hlen & Happ). done.
Qed.
End consolidation_more.

(** ** When the extraction returns *)

Section extraction_returns.
Context (sample_data : list Stop) (vehicle_routes_data : list TransitRow).
Context (manager : RoutingIndexManager) (routing : RoutingModel).
Context (next : nat → nat).

Local Abbreviation on_record := (recorded sample_data vehicle_routes_data).
Local Abbreviation call_at := (visit sample_data vehicle_routes_data).
Local Abbreviation drive :=
  (van_loop sample_data vehicle_routes_data manager routing (Some next)).

Lemma visit_recorded van node total js v :
  node ≠ 0 → on_record node v →
  call_at van node (total, js)
  = Ok ((total + seconds v.2)%Z, js ++ collect van total [v]).
Proof.
  intros Hnode [Hstop Htime]. unfold visit.
  rewrite bool_decide_eq_true_2 by done. unfold iloc. rewrite Hstop.
  destruct (vehicle_routes_data !! (node - 1)) as [row|]; [|done].
  simpl in Htime. cbn [mbind outcome_bind].
  change (getitem row "Time to Next Stop")
    with (Ok (A := cell) (match Time_to_Next_Stop row with
                          | Some t => CTime t
                          | None => CNaN
                          end)).
  destruct (Time_to_Next_Stop row) as [t|]; [|done].
  simplify_eq. by destruct v.
Qed.

Lemma van_loop_returns van fuel : ∀ index total js,
  ends_within routing next fuel index = true →
  (∀ node, node ∈ filter (λ node, node ≠ 0)
                    (route manager routing (Some next) fuel index) →
           ∃ v, on_record node v) →
  ∃ out, drive fuel van index (total, js) = Ok out.
Proof.
  induction fuel as [|fuel IH]; intros index total js Hend Hrec; [done|].
  cbn [van_loop route ends_within] in *.
  destruct (IsEnd routing index); [by eexists|].
  simpl in Hend.
  destruct (decide (IndexToNode manager index = 0)) as [Hz|Hnz].
  - rewrite Hz, visit_depot. cbn [mbind outcome_bind].
    apply IH; [done|]. intros node Hnode. apply Hrec.
    rewrite Hz, filter_cons_False by (intros H; by apply H). done.
  - destruct (Hrec (IndexToNode manager index)) as [v Hv].
    { rewrite filter_cons_True by done. left. }
    rewrite (visit_recorded _ _ _ _ v) by done. cbn [mbind outcome_bind].
    apply IH; [done|]. intros node Hnode. apply Hrec.
    rewrite filter_cons_True by done. by right.
Qed.

Lemma extract_returns fuel n : ∀ a js,
  (∀ van, a ≤ van < a + n →
          ends_within routing next fuel (Start routing van) = true) →
  (∀ van node, a ≤ van < a + n →
               node ∈ stops_of_van manager routing (Some next) fuel van →
               ∃ v, on_record node v) →
  ∃ out,
    for_each
      (λ journeys van_index,
         drive fuel van_index (Start routing van_index) (0%Z, journeys))
      (seq a n) js = Ok out.
Proof.
  induction n as [|n IH]; intros a js Hend Hrec; [by eexists|].
  cbn [seq for_each].
  destruct (van_loop_returns a fuel (Start routing a) 0%Z js) as [js1 ->].
  - apply Hend. lia.
  - intros node Hnode. apply (Hrec a); [lia|done].
  - cbn [mbind outcome_bind]. apply IH.
    + intros van Hvan. apply Hend. lia.
    + intros van node Hvan. apply Hrec. lia.
Qed.
End extraction_returns.

(** ** More on the pipeline *)

Section pipeline_more.
Context (ortools : pywrapcp).
Implicit Types (sample_data : list Stop) (vehicle_routes_data : list TransitRow).

(** X10: The extraction returns a journey table as soon as the fuel covers the
    routes: when the solver has an answer, every van's chain of indices
    meets an end index within the fuel, and the tables record a sample and
    a time to the next stop for every stop of every van. *)
Theorem assign_journeys_returns fuel sample_data vehicle_routes_data num_vans
    G next :
  build_graph vehicle_routes_data = Ok G →
  let manager := new_RoutingIndexManager ortools (size G) num_vans 0 in
  let routing := new_RoutingModel ortools manager in
  SolveWithParameters ortools routing (distance_callback G manager) 10
  = Some next →
  (∀ van_index, van_index < num_vans →
     ends_within routing next fuel (Start routing van_index) = true) →
  (∀ van_index node, van_index < num_vans →
     node ∈ stops_of_van manager routing (Some next) fuel van_index →
     ∃ v, recorded sample_data vehicle_routes_data node v) →
  ∃ out,
    assign_journeys ortools fuel sample_data vehicle_routes_data num_vans = Ok out.
Proof.
  intros HG manager routing Hsol Hend Hrec.
  unfold assign_journeys. rewrite HG. cbn [mbind outcome_bind].
  fold manager routing. rewrite Hsol. unfold extract.
  destruct (extract_returns sample_data vehicle_routes_data manager routing
              next fuel num_vans 0 []) as [journeys ->].
  - intros van Hvan. apply Hend. lia.
  - intros van node Hvan. apply Hrec. lia.
  - by eexists.
Qed.

Lemma collect_length van visits : ∀ total,
  length (collect van total visits) = length visits.
Proof.
  induction visits as [|[stop t] visits IH]; intros total; [done|].
  simpl. by rewrite IH.
Qed.

Lemma blocks_length (stops : nat → list nat) (vans : list nat) :
  ∀ (blocks : list (list (Stop * time))),
  Forall2 (λ van visits, Forall2 (λ node v, True) (stops van) visits) vans blocks →
  length (concat (zip_with (λ van visits, collect van 0 visits) vans blocks))
  = sum_list ((λ van, length (stops van)) <$> vans).
Proof.
  induction vans as [|van vans IH]; intros blocks Hb.
  { by apply Forall2_nil_inv_l in Hb as ->. }
  apply Forall2_cons_inv_l in Hb as (visits & blocks' & Hv & Hb & ->).
  cbn [zip_with concat]. rewrite length_app, collect_length, IH by done.
  rewrite fmap_cons. simpl. f_equal. symmetry. by eapply Forall2_length.
Qed.

(** X11: The journey table has one row for every stop of every van, none for
    the depot, and its index labels are 0, 1, 2, ... in the order of
    emission. *)
Theorem assign_journeys_count fuel sample_data vehicle_routes_data num_vans out :
  assign_journeys ortools fuel sample_data vehicle_routes_data num_vans = Ok out →
  ∃ G, build_graph vehicle_routes_data = Ok G ∧
    let manager := new_RoutingIndexManager ortools (size G) num_vans 0 in
    let routing := new_RoutingModel ortools manager in
    let solution :=
      SolveWithParameters ortools routing (distance_callback G manager) 10 in
    length out
    = sum_list ((λ van_index,
                   length (stops_of_van manager routing solution fuel van_index))
                <$> seq 0 num_vans)
    ∧ out.*1 = seq 0 (length out).
Proof.
  intros Hrun. apply assign_journeys_blocks in Hrun as (blocks & Hblocks & ->).
  exists (chain vehicle_routes_data ∅). split; [apply build_graph_chain|].
  intros manager routing solution. split.
  - unfold DataFrame. rewrite length_imap.
    apply blocks_length.
    eapply Forall2_impl; [exact Hblocks|]. intros van visits Hv.
    eapply Forall2_impl; [exact Hv|]. done.
  - rewrite DataFrame_labels. unfold DataFrame. by rewrite length_imap.
Qed.

(** X12: The journey table of [assign_journeys] always goes through the
    consolidation: its labels are distinct, so no [drop] can fail. *)
Theorem assign_then_update_returns fuel sample_data vehicle_routes_data num_vans
    courier_data out :
  assign_journeys ortools fuel sample_data vehicle_routes_data num_vans = Ok out →
  ∃ app js',
    update_courier_rounds courier_data out sample_data
    = Ok (courier_data ++ app, js')
    ∧ length app + length js' = length out.
Proof.
  intros Hrun. apply assign_journeys_labels in Hrun.
  exists (appended courier_data out), (kept courier_data out).
  split; [by apply update_courier_rounds_reads_input|].
  apply appended_kept_length.
Qed.

(** X13: [main] gets to its end only when the consolidation has taken every
    journey: the total it then reports is zero. With a journey left, the
    last step raises. *)
Theorem main_returns_without_journeys fuel sample_data vehicle_routes_data
    courier_data num_vans courier_data' journeys total_time :
  main ortools fuel sample_data vehicle_routes_data courier_data num_vans
  = Ok (courier_data', journeys, total_time) →
  journeys = [] ∧ total_time = 0%Z
  ∧ ∃ out app,
      assign_journeys ortools fuel sample_data vehicle_routes_data num_vans = Ok out
      ∧ courier_data' = courier_data ++ app ∧ length app = length out.
Proof.
  unfold main.
  destruct (assign_journeys _ _ _ _ _) as [out| |] eqn:Hassign;
    cbn [mbind outcome_bind]; [|done..].
  pose proof (assign_journeys_labels _ _ _ _ _ _ Hassign) as Hnd.
  rewrite update_courier_rounds_reads_input by done. cbn [mbind outcome_bind].
  pose proof (appended_kept_length courier_data out) as Hlen.
  destruct (kept courier_data out) as [|ir js]; [|done].
  unfold calculate_total_time, iterrows. cbn [for_each mbind outcome_bind].
  unfold mret, outcome_ret. intros ?; simplify_eq.
  split; [done|]. split; [done|]. exists out, (appended courier_data out).
  split; [done|]. split; [done|]. simpl in Hlen. lia.
Qed.

(** X14: On the route table, which has the column, [calculate_total_time] adds
    the times to the next stop of all the rows. *)
Theorem calculate_total_time_route_table (rows : Frame TransitRow)
    vehicle_routes_data ts :
  Forall2 (λ r t, Time_to_Next_Stop r.2 = Some t) rows ts →
  calculate_total_time rows vehicle_routes_data
  = Ok (foldr Z.add 0%Z (seconds <$> ts)).
Proof.
  intros Hts. unfold calculate_total_time, iterrows.
  by rewrite (calculate_total_time_sums rows vehicle_routes_data ts 0%Z).
Qed.

(** X15: A blank time to the next stop, as the last row of a route table has
    it, makes [calculate_total_time] raise [AttributeError] once the rows
    before it have been added. *)
Theorem calculate_total_time_blank (before after : Frame TransitRow)
    (ir : nat * TransitRow) vehicle_routes_data ts :
  Forall2 (λ r t, Time_to_Next_Stop r.2 = Some t) before ts →
  Time_to_Next_Stop ir.2 = None →
  calculate_total_time (before ++ ir :: after) vehicle_routes_data
  = Raise AttributeError.
Proof.
  intros Hts Hblank. unfold calculate_total_time, iterrows.
  generalize 0%Z. revert ts Hts.
  induction before as [|[i r] before IH]; intros ts Hts total.
  - cbn [app for_each]. destruct ir as [i r]. simpl in Hblank.
    change (getitem (i, r).2 "Time to Next Stop")
      with (Ok (A := cell) (match Time_to_Next_Stop r with
                            | Some t => CTime t
                            | None => CNaN
                            end)).
    by rewrite Hblank.
  - apply Forall2_cons_inv_l in Hts as (t & ts' & Ht & Hts & ->).
    simpl in Ht. cbn [app for_each].
    change (getitem (i, r).2 "Time to Next Stop")
      with (Ok (A := cell) (match Time_to_Next_Stop r with
                            | Some t => CTime t
                            | None => CNaN
                            end)).
    rewrite Ht. cbn [mbind outcome_bind timedelta_of mret outcome_ret].
    by apply (IH ts').
Qed.
End pipeline_more.


(** ** Strictly later collections *)

Section strict_clock.
Context (ortools : pywrapcp).
Implicit Types (visits : list (Stop * time)) (total : Z).

Lemma hours_strict a b : (a < b)%Z → (hours a < hours b)%Q.
Proof. intros Hab. unfold hours, Qlt. simpl. lia. Qed.

Lemma collect_strict_lower_bound van visits : ∀ total,
  Forall (λ v, (0 < seconds v.2)%Z) visits →
  Forall (λ j, (hours total < Time_of_Collection j)%Q) (collect van total visits).
Proof.
  induction visits as [|[stop t] visits IH]; intros total Hpos; [constructor|].
  apply Forall_cons in Hpos as [Ht Hpos]. simpl in Ht.
  cbn [collect]. constructor.
  - simpl. apply hours_strict. lia.
  - eapply Forall_impl; [by apply IH|]. intros j Hj. simpl in Hj.
    eapply Qlt_trans; [|exact Hj]. apply hours_strict. lia.
Qed.

Lemma collect_strictly_sorted van visits : ∀ total,
  Forall (λ v, (0 < seconds v.2)%Z) visits →
  Sorted Qlt (Time_of_Collection <$> collect van total visits).
Proof.
  induction visits as [|[stop t] visits IH]; intros total Hpos; [constructor|].
  apply Forall_cons in Hpos as [Ht Hpos].
  cbn [collect]. rewrite fmap_cons. constructor; [by apply IH|].
  pose proof (collect_strict_lower_bound van visits (total + seconds t) Hpos)
    as Hlow.
  destruct (collect van (total + seconds t) visits) as [|j js]; [constructor|].
  rewrite fmap_cons. constructor. by apply Forall_cons in Hlow as [Hj _].
Qed.

Lemma blocks_strictly_sorted label n : ∀ a blocks,
  Forall (Forall (λ v, (0 < seconds v.2)%Z)) blocks →
  Sorted Qlt
    (Time_of_Collection <$>
       filter (λ j, Van_Collecting j = label)
         (concat (zip_with (λ van visits, collect van 0 visits) (seq a n) blocks))).
Proof.
  induction n as [|n IH]; intros a blocks Hpos; [constructor|].
  destruct blocks as [|visits blocks]; [constructor|].
  apply Forall_cons in Hpos as [Hvisits Hpos].
  cbn [seq zip_with concat]. rewrite filter_app.
  pose proof (collect_label a visits 0) as Hl.
  destruct (decide (label = "Van " +:+ pretty (a + 1))) as [->|Hne].
  - rewrite filter_all by done.
    rewrite filter_none.
    + rewrite app_nil_r. by apply collect_strictly_sorted.
    + apply Forall_forall. intros j Hin Hj.
      apply blocks_label in Hin as (van & Hle & Hvan).
      rewrite Hvan in Hj. apply van_label_inj in Hj. lia.
  - rewrite (filter_none _ (collect a 0 visits)).
    + by apply IH.
    + eapply Forall_impl; [exact Hl|]. simpl. congruence.
Qed.

(** X16: When every time to the next stop in the route table is longer than
    zero, the collection times of one van are strictly increasing. *)
Theorem collection_times_increasing fuel sample_data vehicle_routes_data
    num_vans out :
  Forall (λ r, ∀ t, Time_to_Next_Stop r = Some t → (0 < seconds t)%Z)
         vehicle_routes_data →
  assign_journeys ortools fuel sample_data vehicle_routes_data num_vans = Ok out →
  ∀ label,
    Sorted Qlt (Time_of_Collection <$>
                  filter (λ j, Van_Collecting j = label) out.*2).
Proof.
  intros Hpos Hrun label.
  apply assign_journeys_blocks in Hrun as (blocks & Hblocks & ->).
  rewrite DataFrame_rows. apply blocks_strictly_sorted.
  apply Forall_forall. intros visits Hvisits.
  apply list_elem_of_lookup in Hvisits as [k Hk].
  destruct (Forall2_lookup_r _ _ _ _ _ Hblocks Hk) as (van & _ & Hrec).
  apply Forall_forall. intros v Hv.
  apply list_elem_of_lookup in Hv as [m Hm].
  destruct (Forall2_lookup_r _ _ _ _ _ Hrec Hm) as (node & _ & _ & Htime).
  destruct (vehicle_routes_data !! (node - 1)) as [r|] eqn:Hr; [|done].
  simpl in Htime. rewrite Forall_forall in Hpos.
  apply (Hpos r); [by eapply list_elem_of_lookup_2|congruence].
Qed.
End strict_clock.

(** ** The further properties on the example tables *)

Lemma build_graph_last_weight_witness :
  ∃ G, build_graph there_and_back = Ok G
       ∧ edge_weight G (KStr "SO16 6YD") (KStr "SO16 8HY")
         = Some (Some (mkTime 0 20 0)).
Proof.
  apply (build_graph_last_weight there_and_back 2
           {| r_Postcode := KStr "SO16 6YD";
              Time_to_Next_Stop := Some (mkTime 0 20 0) |}
           {| r_Postcode := KStr "SO16 8HY"; Time_to_Next_Stop := None |});
    [reflexivity..|].
  intros j r1 r1' Hj H1 H2.
  do 3 (destruct j as [|j]; [lia|]).
  destruct j; simpl in H2; discriminate.
Defined.

Lemma distance_callback_text_postcodes_witness :
  ∃ G, build_graph four_stops = Ok G
       ∧ ∀ manager from_index to_index,
           distance_callback G manager from_index to_index = Raise KeyError.
Proof.
  apply distance_callback_text_postcodes. intros r Hr.
  repeat (apply elem_of_cons in Hr as [->|Hr]; [by eexists|]).
  by apply elem_of_nil in Hr.
Defined.

Lemma update_courier_rounds_raises_witness :
  update_courier_rounds full_round
    [(0, lordshill_journey); (0, lordshill_journey)] []
  = Raise KeyError
  ∧ ¬ NoDup [(0, lordshill_journey); (0, lordshill_journey)].*1.
Proof.
  assert (Hrun : update_courier_rounds full_round
                   [(0, lordshill_journey); (0, lordshill_journey)] []
                 = Raise KeyError) by (vm_compute; reflexivity).
  split; [exact Hrun|].
  exact (proj2 (update_courier_rounds_raises _ _ _ _ Hrun)).
Defined.

Lemma update_courier_rounds_count_witness :
  ∃ app js',
    update_courier_rounds full_round
      (DataFrame [lordshill_journey; portswood_journey]) []
    = Ok (full_round ++ app, js')
    ∧ length app + length js' = 2.
Proof.
  apply (update_courier_rounds_count full_round
           (DataFrame [lordshill_journey; portswood_journey]) []).
  apply (bool_decide_unpack _). vm_compute. exact I.
Defined.

Lemma update_courier_rounds_twice_witness :
  ∃ cd' js',
    update_courier_rounds full_round
      (DataFrame [lordshill_journey; portswood_journey]) []
    = Ok (cd', js')
    ∧ update_courier_rounds cd' js' [] = Ok (cd', js').
Proof.
  apply (update_courier_rounds_twice full_round
           (DataFrame [lordshill_journey; portswood_journey]) []).
  apply (bool_decide_unpack _). vm_compute. exact I.
Defined.

Lemma update_courier_rounds_other_tasks_witness :
  update_courier_rounds [collected lordshill_stop lordshill_journey]
    (DataFrame [lordshill_journey; portswood_journey]) []
  = Ok ([collected lordshill_stop lordshill_journey],
        DataFrame [lordshill_journey; portswood_journey]).
Proof.
  apply update_courier_rounds_other_tasks.
  repeat constructor; simpl; discriminate.
Defined.

Lemma update_courier_rounds_app_witness :
  ∃ app1 kept1 app2 kept2,
    update_courier_rounds full_round [(0, lordshill_journey)] []
    = Ok (full_round ++ app1, kept1)
    ∧ update_courier_rounds full_round [(1, portswood_journey)] []
      = Ok (full_round ++ app2, kept2)
    ∧ update_courier_rounds full_round
        ([(0, lordshill_journey)] ++ [(1, portswood_journey)]) []
      = Ok (full_round ++ app1 ++ app2, kept1 ++ kept2).
Proof.
  apply (update_courier_rounds_app full_round
           [(0, lordshill_journey)] [(1, portswood_journey)] []).
  apply (bool_decide_unpack _). vm_compute. exact I.
Defined.

Lemma update_courier_rounds_same_postcode_witness :
  ∃ app,
    update_courier_rounds full_round
      (DataFrame [lordshill_journey; lordshill_journey; lordshill_journey]) []
    = Ok (full_round ++ app, [])
    ∧ length app = 3
    ∧ Forall (λ a, Round_ID a = KStr "R1" ∧ Vehicle_ID a = KStr "V1"
                   ∧ Volume a = 0.036%Q) app.
Proof.
  apply (update_courier_rounds_same_postcode full_round
           (DataFrame [lordshill_journey; lordshill_journey; lordshill_journey])
           [] lordshill_stop).
  - apply (bool_decide_unpack _). vm_compute. exact I.
  - repeat constructor.
  - left. reflexivity.
  - apply Qle_bool_iff. vm_compute. reflexivity.
Defined.

Lemma assign_journeys_returns_witness :
  ∃ out, assign_journeys two_vans 10 three_samples four_stops 2 = Ok out.
Proof.
  assert (HG : build_graph four_stops = Ok (chain four_stops ∅))
    by (vm_compute; reflexivity).
  apply (assign_journeys_returns two_vans 10 three_samples four_stops 2
           (chain four_stops ∅) _ HG eq_refl).
  - intros van Hvan. destruct van as [|[|van]]; [reflexivity..|lia].
  - intros van node Hvan Hnode.
    destruct van as [|[|van]]; [| |lia]; vm_compute in Hnode.
    + apply elem_of_cons in Hnode as [->|Hnode]; [by eexists (_, _)|].
      apply elem_of_cons in Hnode as [->|Hnode]; [by eexists (_, _)|].
      by apply elem_of_nil in Hnode.
    + apply elem_of_cons in Hnode as [->|Hnode]; [by eexists (_, _)|].
      by apply elem_of_nil in Hnode.
Defined.

Lemma assign_journeys_count_witness :
  assign_journeys two_vans 10 three_samples four_stops 2 = Ok two_van_journeys
  ∧ two_van_journeys.*1 = seq 0 (length two_van_journeys).
Proof.
  assert (Hrun : assign_journeys two_vans 10 three_samples four_stops 2
                 = Ok two_van_journeys) by (vm_compute; reflexivity).
  split; [exact Hrun|].
  destruct (assign_journeys_count two_vans 10 three_samples four_stops 2
              two_van_journeys Hrun) as (G & _ & _ & Hlabels).
  exact Hlabels.
Defined.

Lemma assign_then_update_returns_witness :
  assign_journeys two_vans 10 three_samples four_stops 2 = Ok two_van_journeys
  ∧ ∃ app js',
      update_courier_rounds full_round two_van_journeys three_samples
      = Ok (full_round ++ app, js')
      ∧ length app + length js' = length two_van_journeys.
Proof.
  assert (Hrun : assign_journeys two_vans 10 three_samples four_stops 2
                 = Ok two_van_journeys) by (vm_compute; reflexivity).
  split; [exact Hrun|].
  exact (assign_then_update_returns two_vans 10 three_samples four_stops 2
           full_round two_van_journeys Hrun).
Defined.

Lemma main_returns_without_journeys_witness :
  main two_vans 10 three_samples four_stops open_round 2
  = Ok (open_round_after, [], 0%Z)
  ∧ ∃ out app,
      assign_journeys two_vans 10 three_samples four_stops 2 = Ok out
      ∧ open_round_after = open_round ++ app ∧ length app = length out.
Proof.
  assert (Hrun : main two_vans 10 three_samples four_stops open_round 2
                 = Ok (open_round_after, [], 0%Z)) by (vm_compute; reflexivity).
  split; [exact Hrun|].
  exact (proj2 (proj2 (main_returns_without_journeys two_vans 10 three_samples
                         four_stops open_round 2 _ _ _ Hrun))).
Defined.

Lemma calculate_total_time_route_table_witness :
  calculate_total_time (DataFrame (take 3 four_stops)) four_stops = Ok 1800%Z.
Proof.
  apply (calculate_total_time_route_table (DataFrame (take 3 four_stops))
           four_stops [mkTime 0 10 0; mkTime 0 15 0; mkTime 0 5 0]).
  repeat constructor.
Defined.

Lemma calculate_total_time_blank_witness :
  calculate_total_time (DataFrame four_stops) four_stops = Raise AttributeError.
Proof.
  apply (calculate_total_time_blank (DataFrame (take 3 four_stops))
           []
           (3, {| r_Postcode := KStr "SO15 5SJ"; Time_to_Next_Stop := None |})
           four_stops [mkTime 0 10 0; mkTime 0 15 0; mkTime 0 5 0]).
  - repeat constructor.
  - reflexivity.
Defined.

Lemma collection_times_increasing_witness :
  assign_journeys two_vans 10 three_samples four_stops 2 = Ok two_van_journeys
  ∧ ∀ label,
      Sorted Qlt (Time_of_Collection <$>
                    filter (λ j, Van_Collecting j = label) two_van_journeys.*2).
Proof.
  assert (Hrun : assign_journeys two_vans 10 three_samples four_stops 2
                 = Ok two_van_journeys) by (vm_compute; reflexivity).
  split; [exact Hrun|].
  apply (collection_times_increasing two_vans 10 three_samples four_stops 2
           two_van_journeys); [|exact Hrun].
  repeat constructor; intros t Ht; simpl in Ht; simplify_eq; reflexivity.
Defined.
